(** * Razor: sequence ingestion, validation and annotation pipeline

    A shallow embedding of [razor.py].  Python [str] values are modelled as
    Stdlib strings of ASCII characters (FASTA is an ASCII format): [upper]
    acts on the letters a-z only.  Python integers are [Z].  The frame that
    [pandas.read_csv] builds is taken from its column 0 onwards: one cell per
    record block. *)

From Stdlib Require Import ZArith List Bool Ascii String Sorted Permutation Lia.
From Stdlib Require Decimal DecimalString DecimalPos.
Import ListNotations.

Open Scope string_scope.

(** ** Python string primitives used by the program *)

Module PyStr.

Definition LF : ascii := "010"%char.

Fixpoint map_str (f : ascii -> ascii) (s : string) : string :=
  match s with
  | EmptyString => EmptyString
  | String c r => String (f c) (map_str f r)
  end.

(** [c.upper()] for an ASCII character. *)
Definition upper_char (c : ascii) : ascii :=
  let n := nat_of_ascii c in
  if (97 <=? n)%nat && (n <=? 122)%nat then ascii_of_nat (n - 32) else c.

(** [s.upper()] *)
Definition upper (s : string) : string := map_str upper_char s.

(** [s.replace(a, b)] for one-character [a] and [b]. *)
Definition replace_char (a b : ascii) (s : string) : string :=
  map_str (fun c => if Ascii.eqb c a then b else c) s.

Fixpoint take (n : nat) (s : string) : string :=
  match n, s with
  | S n', String c r => String c (take n' r)
  | _, _ => EmptyString
  end.

(** [s[:k]]: a negative stop counts from the end of the string. *)
Definition slice_to (k : Z) (s : string) : string :=
  if (0 <=? k)%Z then take (Z.to_nat k) s
  else take (String.length s - Z.to_nat (- k)) s.

(** [re.sub(a, '', s)] for a one-character pattern [a]. *)
Fixpoint remove_char (a : ascii) (s : string) : string :=
  match s with
  | EmptyString => EmptyString
  | String c r =>
      if Ascii.eqb c a then remove_char a r else String c (remove_char a r)
  end.

(** [s.split(sep, 1)]: the text before the first [sep], and the text after
    it when there is one. *)
Fixpoint split_once (sep : ascii) (s : string) : string * option string :=
  match s with
  | EmptyString => (EmptyString, None)
  | String c r =>
      if Ascii.eqb c sep then (EmptyString, Some r)
      else let '(h, t) := split_once sep r in (String c h, t)
  end.

Fixpoint forall_chars (p : ascii -> bool) (s : string) : bool :=
  match s with
  | EmptyString => true
  | String c r => p c && forall_chars p r
  end.

Fixpoint mem_char (c : ascii) (s : string) : bool :=
  match s with
  | EmptyString => false
  | String d r => Ascii.eqb c d || mem_char c r
  end.

Fixpoint repeat_char (c : ascii) (n : nat) : string :=
  match n with
  | O => EmptyString
  | S n' => String c (repeat_char c n')
  end.

End PyStr.

Import PyStr.

(** ** The alphabet validator: [check_seq] *)

(** The character class [[RKNDQEHPYWSTGAMCFLVI]]. *)
Definition valid_aa_letters : string := "RKNDQEHPYWSTGAMCFLVI".

Definition in_alphabet (c : ascii) : bool := mem_char c valid_aa_letters.

(** Where [$] matches (no MULTILINE flag): at the end of the string, or just
    before a newline that is the last character. *)
Definition at_dollar (s : string) : bool :=
  String.eqb s "" || String.eqb s (String LF "").

(** [re.match(re.compile("^[RKNDQEHPYWSTGAMCFLVI]*$"), s)] as a boolean: at
    each position either [$] matches the rest, or the class takes one more
    character. *)
Fixpoint valid_aa_match (s : string) : bool :=
  at_dollar s ||
  match s with
  | EmptyString => false
  | String c r => in_alphabet c && valid_aa_match r
  end.

Definition check_seq (seq : string) (max_scan : Z) : bool :=
  let seq := replace_char "U" "C" (slice_to (max_scan + 15) (upper seq)) in
  if valid_aa_match seq then true else false.

(** The keyword default [max_scan=80]. *)
Definition default_max_scan : Z := 80.

(** What the specification calls normalisation: [s.upper()] with every [U]
    rewritten to [C]. *)
Definition normalize (s : string) : string := replace_char "U" "C" (upper s).

(** ** The record parser: [fasta_reader] *)

(** A cell of an object column: a string, Python's [None], or the missing
    value [NaN]. *)
Inductive value : Type :=
| Str (s : string)
| NoneV
| NaN.

Definition notna (v : value) : bool :=
  match v with
  | Str _ => true
  | _ => false
  end.

(** Exceptions the program raises or lets through. *)
Inductive exn : Type :=
| ArgumentTypeError (msg : string)
| TypeError
| OtherError (name : string).

(** One row of [fasta_df]: the index label it got from [read_csv], and the
    columns [Accession] and [Sequence]. *)
Record Row : Type := mkRow {
  index : nat;
  Accession : value;
  Sequence : string
}.

(** [fasta_df[0].str.split('\n', n=1, expand=True)] on one cell: a block with
    no line break leaves [None] in the second column, a missing cell gives
    [NaN] in both. *)
Definition str_split_expand (v : value) : value * value :=
  match v with
  | Str s =>
      let '(a, r) := split_once LF s in
      (Str a, match r with Some t => Str t | None => NoneV end)
  | _ => (NaN, NaN)
  end.

(** The expanded split has two columns only when some block has a line
    break; otherwise the assignment to [['Accession', 'Sequence']] raises
    (as does [.str] on a column without strings). *)
Definition splits_in_two (file : list value) : bool :=
  existsb (fun v => match v with Str s => mem_char LF s | _ => false end) file.

(** [Series.replace('\n', '', regex=True)]: substitution inside strings. *)
Definition replace_regex_LF (v : value) : value :=
  match v with
  | Str s => Str (remove_char LF s)
  | _ => v
  end.

(** [.astype(str)] *)
Definition astype_str (v : value) : string :=
  match v with
  | Str s => s
  | NoneV => "None"
  | NaN => "nan"
  end.

(** [Series.replace('U', 'C')] without [regex=True]: a cell is replaced when
    the whole cell equals ['U']. *)
Definition series_replace_U_C (s : string) : string :=
  if String.eqb s "U" then "C" else s.

(** Lines 52-53: the value stored in column [Sequence]. *)
Definition process_sequence (v : value) (max_scan : Z) : string :=
  slice_to (max_scan + 15)
    (series_replace_U_C (upper (astype_str (replace_regex_LF v)))).

Definition parse_row (i : nat) (cell : value) (max_scan : Z) : Row :=
  let '(acc, seq) := str_split_expand cell in
  {| index := i; Accession := acc; Sequence := process_sequence seq max_scan |}.

Fixpoint rows_from (i : nat) (file : list value) (max_scan : Z) : list Row :=
  match file with
  | [] => []
  | cell :: rest => parse_row i cell max_scan :: rows_from (S i) rest max_scan
  end.

(** Line 57: the validator is called with its default window. *)
Definition check (r : Row) : bool := check_seq (Sequence r) default_max_scan.

(** Line 59 *)
Definition not_empty_not_none (r : Row) : bool :=
  negb (String.eqb (Sequence r) "") && negb (String.eqb (Sequence r) "NONE").

(** Line 60: [dropna] keeps the rows without a missing value. *)
Definition row_notna (r : Row) : bool := notna (Accession r).

(** What [fasta_reader] hands back: the frame and, when records were removed,
    the number formatted into the printed message. *)
Definition fasta_reader (file : list value) (max_scan : Z)
  : exn + (list Row * option nat) :=
  if negb (splits_in_two file)
  then inl (ArgumentTypeError "Something is wrong with the fasta file.")
  else
    let fasta_df := rows_from 0 file max_scan in
    let total_seq := List.length fasta_df in
    let fasta_df := filter check fasta_df in
    let fasta_df := filter not_empty_not_none fasta_df in
    let final_df := filter row_notna fasta_df in
    let remained_seq := List.length final_df in
    let printed :=
      if Nat.eqb total_seq remained_seq then None
      else Some (total_seq - remained_seq) in
    inr (final_df, printed).

(** ** The classifier object and [razor_predict] *)

(** The attributes of a [detector.RAZOR] object that [razor_predict] reads.
    [F] is the type of numpy floats; arrays are lists ([.tolist()] is the
    identity on them), with the two constructor arguments the object
    keeps.  [final_cleavage] is [None] when the attribute is not an array;
    the eleven others are taken to be set when they are read. *)
Record RAZOR (F : Type) : Type := mkRAZOR {
  self_seq : string;
  self_max_scan : Z;
  y_scores : list F;
  preds : list bool;
  c_scores : list F;
  cleavage_sites : list Z;
  final_cleavage : option (list Z);
  final_score_sp : F;
  fungi_scores : list F;
  fungi_preds : list bool;
  final_score_fungi : F;
  toxin_scores : list F;
  toxin_preds : list bool;
  final_score_toxin : F
}.

Arguments mkRAZOR {F}.
Arguments self_seq {F}.
Arguments self_max_scan {F}.
Arguments y_scores {F}.
Arguments preds {F}.
Arguments c_scores {F}.
Arguments cleavage_sites {F}.
Arguments final_cleavage {F}.
Arguments final_score_sp {F}.
Arguments fungi_scores {F}.
Arguments fungi_preds {F}.
Arguments final_score_fungi {F}.
Arguments toxin_scores {F}.
Arguments toxin_preds {F}.
Arguments final_score_toxin {F}.

(** The interface of [libs.detector] as [razor_predict] uses it: a
    constructor, and three methods that update the object and may raise.  A
    method returns the object as it stands after the call and the exception
    it raised, if any. *)
Class Detector (F : Type) : Type := {
  RAZOR_new : string -> Z -> exn + RAZOR F;
  predict : RAZOR F -> RAZOR F * option exn;
  fungi : RAZOR F -> RAZOR F * option exn;
  toxin : RAZOR F -> RAZOR F * option exn
}.

(** The 12-tuple that [razor_predict] returns, its fields named after the
    columns [main] unpacks them into. *)
Record Bundle (F : Type) : Type := mkBundle {
  Y_score : list F;
  SP_Prediction : list bool;
  Max_C : list F;
  Probable_Cleavage_after : list Z;
  Cleavage_after_residue : Z;
  SP_score : F;
  Fungi_Scores : list F;
  Fungi_Prediction : list bool;
  Fungi_scores_Median : F;
  Toxin_Scores : list F;
  Toxin_Prediction : list bool;
  Toxin_scores_Median : F
}.

Arguments mkBundle {F}.
Arguments Y_score {F}.
Arguments SP_Prediction {F}.
Arguments Max_C {F}.
Arguments Probable_Cleavage_after {F}.
Arguments Cleavage_after_residue {F}.
Arguments SP_score {F}.
Arguments Fungi_Scores {F}.
Arguments Fungi_Prediction {F}.
Arguments Fungi_scores_Median {F}.
Arguments Toxin_Scores {F}.
Arguments Toxin_Prediction {F}.
Arguments Toxin_scores_Median {F}.

Definition is_TypeError (e : exn) : bool :=
  match e with
  | TypeError => true
  | _ => false
  end.

Section Prediction.

Context {F : Type}.

(** [np.around(x, 2)] *)
Variable around2 : F -> F.

Context {D : Detector F}.

(** Lines 87-91: [fungi()] then [toxin()] under one [try]; a [TypeError]
    from either ends the block and is dropped, any other exception goes
    on. *)
Definition optional_stages (newObj : RAZOR F) : RAZOR F * option exn :=
  let r := match fungi newObj with
           | (o, None) => toxin o
           | (o, Some e) => (o, Some e)
           end in
  match r with
  | (o, Some e) => if is_TypeError e then (o, None) else (o, Some e)
  | (o, None) => (o, None)
  end.

(** Lines 92-95: the first element of [final_cleavage], or 0 when taking
    it raises. *)
Definition cleav (newObj : RAZOR F) : Z :=
  match final_cleavage newObj with
  | Some (c :: _) => c
  | _ => 0%Z
  end.

(** Lines 97-109 *)
Definition collect (newObj : RAZOR F) : Bundle F :=
  let y_score := map around2 (y_scores newObj) in
  let predictions := preds newObj in
  let max_c_scores := c_scores newObj in
  let possible_cleavage := cleavage_sites newObj in
  let cleavage := cleav newObj in
  let final_score_sp := around2 (final_score_sp newObj) in
  let fungi_scores := fungi_scores newObj in
  let fungi_preds := fungi_preds newObj in
  let final_score_fungi := final_score_fungi newObj in
  let toxin_scores := toxin_scores newObj in
  let toxin_preds := toxin_preds newObj in
  let final_score_toxin := final_score_toxin newObj in
  mkBundle y_score predictions max_c_scores possible_cleavage cleavage
           final_score_sp fungi_scores fungi_preds final_score_fungi
           toxin_scores toxin_preds final_score_toxin.

(** The object as it stands when the results are read, or the exception
    that leaves the call. *)
Definition run_detector (seq : string) (max_scan : Z) : exn + RAZOR F :=
  match RAZOR_new seq max_scan with
  | inl e => inl e
  | inr newObj =>
      match predict newObj with
      | (_, Some e) => inl e
      | (newObj, None) =>
          match optional_stages newObj with
          | (_, Some e) => inl e
          | (newObj, None) => inr newObj
          end
      end
  end.

Definition razor_predict (seq : string) (max_scan : Z) : exn + Bundle F :=
  match run_detector seq max_scan with
  | inl e => inl e
  | inr newObj => inr (collect newObj)
  end.

End Prediction.

(** ** The classifier of [libs/detector.py]

    The class [RAZOR] is not among the sources; its behaviour is taken from
    the specification, over what the three stages compute. *)
Section SpecDetector.

Context {F : Type}.
Variable zero : F.

(** What the three stages compute; [None] marks an inapplicable stage. *)
Variable primary :
  string -> Z -> list F * list bool * list F * list Z * option (list Z) * F.
Variable fungal : RAZOR F -> option (list F * list bool * F).
Variable toxic : RAZOR F -> option (list F * list bool * F).

(** Modelled from the spec: the constructor of [detector.RAZOR], missing
    from the sources.  Fields 7-12 take defined default values: empty
    sequences and zero aggregates. *)
Definition spec_new (seq : string) (max_scan : Z) : exn + RAZOR F :=
  inr (mkRAZOR seq max_scan [] [] [] [] None zero [] [] zero [] [] zero).

(** Modelled from the spec: the method [predict], missing from the sources.
    It fills the six primary attributes and leaves the others. *)
Definition spec_predict (o : RAZOR F) : RAZOR F * option exn :=
  let '(ys, ps, cs, sites, fc, sp) :=
    primary (self_seq o) (self_max_scan o) in
  (mkRAZOR (self_seq o) (self_max_scan o) ys ps cs sites fc sp
           (fungi_scores o) (fungi_preds o) (final_score_fungi o)
           (toxin_scores o) (toxin_preds o) (final_score_toxin o), None).

(** Modelled from the spec: the method [fungi], missing from the sources.
    The secondary stage fills fields 7-9, or is inapplicable: it then raises
    the error type that [razor_predict] suppresses, with whatever was
    computed left in place. *)
Definition spec_fungi (o : RAZOR F) : RAZOR F * option exn :=
  match fungal o with
  | None => (o, Some TypeError)
  | Some (fs, fp, fm) =>
      (mkRAZOR (self_seq o) (self_max_scan o)
               (y_scores o) (preds o) (c_scores o) (cleavage_sites o)
               (final_cleavage o) (final_score_sp o) fs fp fm
               (toxin_scores o) (toxin_preds o) (final_score_toxin o), None)
  end.

(** Modelled from the spec: the method [toxin], missing from the sources.
    The tertiary stage fills fields 10-12, or is inapplicable in the same
    way. *)
Definition spec_toxin (o : RAZOR F) : RAZOR F * option exn :=
  match toxic o with
  | None => (o, Some TypeError)
  | Some (ts, tp, tm) =>
      (mkRAZOR (self_seq o) (self_max_scan o)
               (y_scores o) (preds o) (c_scores o) (cleavage_sites o)
               (final_cleavage o) (final_score_sp o)
               (fungi_scores o) (fungi_preds o) (final_score_fungi o)
               ts tp tm, None)
  end.

(** The object once [predict] has run, and once [fungi] has run on it. *)
Definition after_predict (seq : string) (max_scan : Z) : RAZOR F :=
  fst (spec_predict
         (mkRAZOR seq max_scan [] [] [] [] None zero [] [] zero [] [] zero)).

Definition after_fungi (seq : string) (max_scan : Z) : RAZOR F :=
  fst (spec_fungi (after_predict seq max_scan)).

(** Modelled from the spec: the class [detector.RAZOR] as a whole. *)
Definition spec_detector : Detector F :=
  {| RAZOR_new := spec_new;
     predict := spec_predict;
     fungi := spec_fungi;
     toxin := spec_toxin |}.

End SpecDetector.

(** ** Configuration: [check_max_scan] and [get_args] *)

Module PyInt.

(** White space that [int] strips from both ends of an ASCII argument: tab
    to carriage return, and the space. *)
Definition is_space (c : ascii) : bool :=
  let n := nat_of_ascii c in
  ((9 <=? n)%nat && (n <=? 13)%nat) || (n =? 32)%nat.

Definition is_digit (c : ascii) : bool :=
  let n := nat_of_ascii c in (48 <=? n)%nat && (n <=? 57)%nat.

Definition digit_value (c : ascii) : Z := Z.of_nat (nat_of_ascii c - 48).

Fixpoint lstrip (s : string) : string :=
  match s with
  | String c r => if is_space c then lstrip r else s
  | EmptyString => EmptyString
  end.

Fixpoint rstrip (s : string) : string :=
  match s with
  | EmptyString => EmptyString
  | String c r =>
      let r' := rstrip r in
      if is_space c && String.eqb r' "" then EmptyString else String c r'
  end.

(** Decimal digits, single underscores allowed between two digits.
    [after_digit] tells whether the previous character was a digit. *)
Fixpoint digits (acc : Z) (after_digit : bool) (s : string) : option Z :=
  match s with
  | EmptyString => if after_digit then Some acc else None
  | String c r =>
      if is_digit c then digits (10 * acc + digit_value c)%Z true r
      else if Ascii.eqb c "_" && after_digit then digits acc false r
      else None
  end.

(** The default of [sys.int_max_str_digits]: [int] refuses a numeral with
    more digit characters, leading zeros counted and underscores not. *)
Definition max_str_digits : nat := 4300.

Fixpoint count_digits (s : string) : nat :=
  match s with
  | EmptyString => O
  | String c r => if is_digit c then S (count_digits r) else count_digits r
  end.

Definition number (t : string) : option Z :=
  if (max_str_digits <? count_digits t)%nat then None else digits 0 false t.

(** [int(s)] for an ASCII string [s]; [None] stands for [ValueError]. *)
Definition int (s : string) : option Z :=
  match rstrip (lstrip s) with
  | String "-" r => option_map Z.opp (number r)
  | String "+" r => number r
  | t => number t
  end.

End PyInt.

Definition check_max_scan (m : string) : exn + Z :=
  match PyInt.int m with
  | None => inl (ArgumentTypeError "Max scan should be an integer.")
  | Some m =>
      if (m <? 16)%Z
      then inl (ArgumentTypeError "Max scan should be greater than 16.")
      else inr m
  end.

(** The command line as [argparse] sees it: the string given to each option,
    if the option is present. *)
Record CommandLine : Type := mkCommandLine {
  opt_path : option string;
  opt_output : option string;
  opt_max_scan : option string;
  opt_ncores : option string;
  opt_quiet : bool
}.

(** The namespace [parse_args] returns. *)
Record Args : Type := mkArgs {
  args_path : string;
  args_output : string;
  args_max_scan : Z;
  args_ncores : Z;
  args_quiet : bool
}.

(** [get_args]: on a value its [type] function refuses, or without the
    required [--path], [argparse] reports a usage error and exits.
    [cpu_count] is [multiprocessing.cpu_count()]. *)
Definition get_args (cpu_count : Z) (cl : CommandLine) : string + Args :=
  match opt_path cl with
  | None => inl "the following arguments are required: -p/--path"
  | Some p =>
      let output := match opt_output cl with Some o => o | None => "result" end in
      let max_scan :=
        match opt_max_scan cl with
        | None => inr 80%Z
        | Some m => check_max_scan m
        end in
      let ncores :=
        match opt_ncores cl with
        | None => Some (cpu_count / 2)%Z
        | Some n => PyInt.int n
        end in
      match max_scan, ncores with
      | inl (ArgumentTypeError msg), _ => inl msg
      | inl _, _ => inl "invalid check_max_scan value"
      | inr _, None => inl "invalid int value"
      | inr m, Some n => inr (mkArgs p output m n (opt_quiet cl))
      end
  end.

(** ** [main] and the script *)

(** A row of the table that [to_csv] writes. *)
Record OutputRow (F : Type) : Type := mkOutputRow {
  out_index : nat;
  out_Accession : value;
  out_Sequence : string;
  out_Analysis : Bundle F
}.

Arguments mkOutputRow {F}.
Arguments out_index {F}.
Arguments out_Accession {F}.
Arguments out_Sequence {F}.
Arguments out_Analysis {F}.

(** File-system events of a run. *)
Inductive io_event : Type :=
| Glob (dir : string)
| ReadCsv (path : string)
| ToCsv (output_path path : string).

(** A column computed from [df['Sequence']]: index labels with their
    values. *)
Definition Series (F : Type) : Type := list (nat * Bundle F).

Section Script.

Context {F : Type}.
Variable around2 : F -> F.
Context {D : Detector F}.

(** The surroundings of a run: [multiprocessing.cpu_count()], the [*.fa]
    files of a directory in sorted order, the column 0 that [read_csv]
    builds from a file (the empty column when [read_csv] itself raises), the
    exception [to_csv] raises on a table, if any (a missing output
    directory), and the order in which the chunks handed to the worker pool
    complete, as a list of chunk positions. *)
Variable cpu_count : Z.
Variable glob_fa : string -> list string.
Variable read_csv : string -> list value.
Variable to_csv : string -> string -> list (OutputRow F) -> option exn.
Variable completion : list (list Row) -> list nat.

(** [Series.apply]: one call per row, in the order of the rows; the first
    exception ends it. *)
Fixpoint series_apply (f : string -> exn + Bundle F) (rows : list Row)
  : exn + Series F :=
  match rows with
  | [] => inr []
  | r :: rest =>
      match f (Sequence r) with
      | inl e => inl e
      | inr b =>
          match series_apply f rest with
          | inl e => inl e
          | inr s => inr ((index r, b) :: s)
          end
      end
  end.

(** [progress_apply]: [Series.apply] with a progress bar. *)
Definition progress_apply (f : string -> exn + Bundle F) (df : list Row)
  : exn + Series F :=
  series_apply f df.

(** Modelled from the spec: how the pool partitions the work; the chunking
    of the third-party [pandarallel] is not among the sources.  The rows are
    cut into at most [nb_workers] chunks of consecutive rows, all of the
    same size but the last. *)
Definition chunk_size (nb_workers : Z) (n : nat) : nat :=
  Z.to_nat ((Z.of_nat n + nb_workers - 1) / nb_workers).

Fixpoint cut (fuel size : nat) (rows : list Row) : list (list Row) :=
  match fuel, rows with
  | S fuel', _ :: _ => firstn size rows :: cut fuel' size (skipn size rows)
  | _, _ => []
  end.

Definition chunks (nb_workers : Z) (rows : list Row) : list (list Row) :=
  cut (List.length rows) (chunk_size nb_workers (List.length rows)) rows.

(** Modelled from the spec: [parallel_apply] of the third-party
    [pandarallel], not among the sources.  The work is partitioned across a
    bounded pool of workers, each worker applies the function to the rows of
    its chunk, and the results come back as the chunks complete, each value
    under the index label of its row; an exception in a worker leaves the
    call.  The specification bounds the pool size below by 1 and gives no
    behaviour under it: a smaller pool is taken to raise. *)
Definition parallel_apply (nb_workers : Z) (f : string -> exn + Bundle F)
           (df : list Row) : exn + Series F :=
  if (nb_workers <? 1)%Z then inl (OtherError "ZeroDivisionError")
  else
    let cs := chunks nb_workers df in
    series_apply f (flat_map (fun i => nth i cs []) (completion cs)).

(** The value a series holds under an index label. *)
Fixpoint lookup (i : nat) (s : Series F) : option (Bundle F) :=
  match s with
  | [] => None
  | (j, b) :: rest => if Nat.eqb i j then Some b else lookup i rest
  end.

(** Lines 146/148 and 154: the series becomes the column [Analysis_],
    aligned on [df.index], and each of its tuples is unpacked into the twelve
    columns of its row.  A row whose label the series lacks has no tuple to
    unpack. *)
Fixpoint assign (df : list Row) (analysis : Series F)
  : option (list (OutputRow F)) :=
  match df with
  | [] => Some []
  | r :: rest =>
      match lookup (index r) analysis, assign rest analysis with
      | Some b, Some out =>
          Some (mkOutputRow (index r) (Accession r) (Sequence r) b :: out)
      | _, _ => None
      end
  end.

(** [main]: the pool is the one [pandarallel.initialize] set up with
    [nb_workers = ncores].  With no row, line 154 has no column to unpack and
    the assignment to the twelve names raises. *)
Definition main (path output_path : string) (max_scan ncores : Z)
  : exn + list (OutputRow F) :=
  match fasta_reader (read_csv path) max_scan with
  | inl e => inl e
  | inr (df, _) =>
      let f := fun x => razor_predict around2 x max_scan in
      let applied :=
        if (ncores =? 1)%Z then progress_apply f df
        else parallel_apply ncores f df in
      match applied with
      | inl e => inl e
      | inr analysis =>
          match df, assign df analysis with
          | _ :: _, Some out =>
              match to_csv output_path path out with
              | Some e => inl e
              | None => inr out
              end
          | _, _ => inl (OtherError "ValueError")
          end
      end
  end.

(** The loop over the files: an exception leaving [main] ends the run; a
    file is written when [main] returns. *)
Fixpoint run_files (files : list string) (a : Args)
  : list io_event * option exn :=
  match files with
  | [] => ([], None)
  | path :: rest =>
      match main path (args_output a) (args_max_scan a) (args_ncores a) with
      | inl e => ([ReadCsv path], Some e)
      | inr _ =>
          let '(evs, r) := run_files rest a in
          (ReadCsv path :: ToCsv (args_output a) path :: evs, r)
      end
  end.

Inductive outcome : Type :=
| UsageError (msg : string)
| Raised (e : exn)
| Finished.

(** The [__main__] block: arguments first, then (after the warnings filter
    and [pandarallel.initialize], which touch no file) the files. *)
Definition script (cl : CommandLine) : list io_event * outcome :=
  match get_args cpu_count cl with
  | inl msg => ([], UsageError msg)
  | inr a =>
      let '(evs, r) := run_files (glob_fa (args_path a)) a in
      (Glob (args_path a) :: evs,
       match r with Some e => Raised e | None => Finished end)
  end.

End Script.

(** ** The vocabulary of the drop rule *)

Definition identifier_of (cell : value) : value := fst (str_split_expand cell).

Definition raw_sequence_of (cell : value) : value :=
  snd (str_split_expand cell).

(** The processed sequence of a record block. *)
Definition processed (cell : value) (max_scan : Z) : string :=
  process_sequence (raw_sequence_of cell) max_scan.

(** The four drop conditions: the validator, run with the window of the
    run, rejects the processed sequence; the processed sequence is empty; it
    is ["NONE"]; the identifier or the sequence is absent. *)
Definition drop_condition (cell : value) (max_scan : Z) : bool :=
  negb (check_seq (processed cell max_scan) max_scan)
  || String.eqb (processed cell max_scan) ""
  || String.eqb (processed cell max_scan) "NONE"
  || negb (notna (identifier_of cell))
  || negb (notna (raw_sequence_of cell)).

(** A row that passes the three filters of lines 58-60. *)
Definition survives (r : Row) : bool :=
  check r && not_empty_not_none r && row_notna r.

(** The count the operator is told: the number in the message, and zero when
    no message is printed. *)
Definition reported (printed : option nat) : nat :=
  match printed with
  | Some d => d
  | None => 0
  end.

(** ** Vocabulary of the further properties *)

(** A residue that may be stored: one of the 20 letters, or [U]. *)
Definition storable (c : ascii) : bool := in_alphabet c || Ascii.eqb c "U".

(** The file-system events of a run in which every file goes through. *)
Definition all_processed (output_path : string) (files : list string)
  : list io_event :=
  flat_map (fun path => [ReadCsv path; ToCsv output_path path]) files.

(** The columns a row of the output takes from the parsed frame. *)
Definition record_of {F : Type} (o : OutputRow F) : Row :=
  mkRow (out_index o) (out_Accession o) (out_Sequence o).

(** The decimal numeral of an integer, as [str] prints it and as it is typed
    on a command line. *)
Definition decimal (n : Z) : string := DecimalString.NilZero.string_of_int (Z.to_int n).

(** Characters below 128. *)
Definition is_ascii (s : string) : bool :=
  forall_chars (fun c => (nat_of_ascii c <? 128)%nat) s.

(** The output rows of a table on which every call returns: each row with
    the bundle computed from its sequence. *)
Fixpoint annotated {F : Type} (f : string -> exn + Bundle F) (df : list Row)
  : option (list (OutputRow F)) :=
  match df with
  | [] => Some []
  | r :: rest =>
      match f (Sequence r), annotated f rest with
      | inr b, Some out =>
          Some (mkOutputRow (index r) (Accession r) (Sequence r) b :: out)
      | _, _ => None
      end
  end.

(** ** Sample inputs *)

Definition nl : string := String LF "".

(** A residue followed by a line break. *)
Definition seq_trailing_newline : string := "A" ++ nl.

(** A one-record file whose sequence is 95 valid residues followed by [X]. *)
Definition long_tail_sequence : string := repeat_char "A" 95 ++ "X".

Definition long_tail_file : list value :=
  [Str ("id1" ++ nl ++ long_tail_sequence ++ nl)].

(** The block of that record. *)
Definition long_tail_cell : value :=
  Str ("id1" ++ nl ++ long_tail_sequence ++ nl).

(** A one-record file with a selenocysteine, and the same with a cysteine. *)
Definition acu_file : list value := [Str ("id1" ++ nl ++ "ACU" ++ nl)].

Definition acc_file : list value := [Str ("id1" ++ nl ++ "ACC" ++ nl)].

(** Ten records, three of which carry a residue outside the alphabet. *)
Definition ten_records : list value :=
  [Str ("r0" ++ nl ++ "MKV" ++ nl);
   Str ("r1" ++ nl ++ "MKX" ++ nl);
   Str ("r2" ++ nl ++ "ACDEF" ++ nl ++ "GHIK" ++ nl);
   Str ("r3" ++ nl ++ "LMNPQ" ++ nl);
   Str ("r4" ++ nl ++ "BAD" ++ nl);
   Str ("r5" ++ nl ++ "rstvwy" ++ nl);
   Str ("r6" ++ nl ++ "MZ" ++ nl);
   Str ("r7" ++ nl ++ "GG" ++ nl);
   Str ("r8" ++ nl ++ "acu" ++ nl);
   Str ("r9" ++ nl ++ "W" ++ nl)].

Definition seven_rows : list Row :=
  [mkRow 0 (Str "r0") "MKV";
   mkRow 2 (Str "r2") "ACDEFGHIK";
   mkRow 3 (Str "r3") "LMNPQ";
   mkRow 5 (Str "r5") "RSTVWY";
   mkRow 7 (Str "r7") "GG";
   mkRow 8 (Str "r8") "ACU";
   mkRow 9 (Str "r9") "W"].

(** A block with an identifier and nothing else, next to a complete one. *)
Definition bare_identifier_file : list value :=
  [Str "id1"; Str ("id2" ++ nl ++ "ACD" ++ nl)].

(** Command lines: a worker count of zero, and a scan window of 15. *)
Definition zero_workers : CommandLine :=
  mkCommandLine (Some "seqs") None None (Some "0") false.

Definition small_window : CommandLine :=
  mkCommandLine (Some "seqs") None (Some "15") None false.

(** A classifier on integer scores for running the pipeline: the primary
    stage returns fixed scores, the fungal stage applies, the toxin stage
    does not. *)
Definition sample_primary (seq : string) (max_scan : Z)
  : list Z * list bool * list Z * list Z * option (list Z) * Z :=
  ([12345; 678]%Z, [true; false], [9]%Z, [21]%Z, Some [21]%Z, 4242%Z).

Definition sample_fungal (o : RAZOR Z) : option (list Z * list bool * Z) :=
  Some ([7531]%Z, [true], 7531%Z).

Definition sample_toxic (o : RAZOR Z) : option (list Z * list bool * Z) :=
  None.

(** The same classifier with an inapplicable fungal stage. *)
Definition no_fungal (o : RAZOR Z) : option (list Z * list bool * Z) := None.

Definition sample_detector : Detector Z :=
  spec_detector 0%Z sample_primary sample_fungal sample_toxic.

(** A stand-in for rounding on integer scores: the multiple of 100 below. *)
Definition sample_around2 (x : Z) : Z := (100 * (x / 100))%Z.

(** A pool whose chunks complete last first, and a [to_csv] that never
    fails. *)
Definition last_first (cs : list (list Row)) : list nat :=
  rev (seq 0 (List.length cs)).


Definition written (output_path path : string) (out : list (OutputRow Z))
  : option exn := None.

(** One worker; a directory with two files, of which the second is
    unreadable. *)
Definition one_worker : CommandLine :=
  mkCommandLine (Some "seqs") (Some "out") (Some "16") (Some "1") true.

Definition two_files (dir : string) : list string := ["a.fa"; "b.fa"].

Definition sample_read_csv (path : string) : list value :=
  if String.eqb path "a.fa" then acc_file else [].

Definition sample_bundle : Bundle Z :=
  mkBundle [12300; 600]%Z [true; false] [9]%Z [21]%Z 21%Z 4200%Z
           [7531]%Z [true] 7531%Z [] [] 0%Z.

(** * Properties *)

(** ** Strings *)

Section StringFacts.

Variable f : ascii -> ascii.

Lemma map_str_length (s : string) :
  String.length (map_str f s) = String.length s.
Proof. induction s as [|c r IH]; simpl; [reflexivity | now rewrite IH]. Qed.

Lemma take_map_str (n : nat) (s : string) :
  take n (map_str f s) = map_str f (take n s).
Proof.
  revert n; induction s as [|c r IH]; intros [|n]; simpl; try reflexivity.
  now rewrite IH.
Qed.

Lemma slice_to_map_str (k : Z) (s : string) :
  slice_to k (map_str f s) = map_str f (slice_to k s).
Proof.
  unfold slice_to. rewrite map_str_length.
  destruct (0 <=? k)%Z; apply take_map_str.
Qed.

Lemma map_str_map_str (g : ascii -> ascii) (s : string) :
  map_str g (map_str f s) = map_str (fun c => g (f c)) s.
Proof. induction s as [|c r IH]; simpl; [reflexivity | now rewrite IH]. Qed.

Lemma map_str_ext (g : ascii -> ascii) (s : string) :
  (forall c, f c = g c) -> map_str f s = map_str g s.
Proof.
  intros E. induction s as [|c r IH]; simpl; [reflexivity | now rewrite E, IH].
Qed.

End StringFacts.

Lemma take_length (n : nat) (s : string) :
  String.length (take n s) = Nat.min n (String.length s).
Proof.
  revert n; induction s as [|c r IH]; intros [|n]; simpl; try reflexivity.
  now rewrite IH.
Qed.

Lemma take_all (n : nat) (s : string) :
  (String.length s <= n)%nat -> take n s = s.
Proof.
  revert n; induction s as [|c r IH]; intros [|n] H; simpl in *;
    try reflexivity; try lia.
  rewrite IH; [reflexivity | lia].
Qed.

Lemma slice_to_length (k : Z) (s : string) :
  (0 <= k)%Z ->
  String.length (slice_to k s) = Nat.min (Z.to_nat k) (String.length s).
Proof.
  intros H. unfold slice_to.
  destruct (Z.leb_spec 0 k); [apply take_length | lia].
Qed.

Lemma slice_to_all (k : Z) (s : string) :
  (Z.of_nat (String.length s) <= k)%Z -> slice_to k s = s.
Proof.
  intros H. unfold slice_to.
  destruct (Z.leb_spec 0 k); [apply take_all | ]; lia.
Qed.

Ltac each_char c := destruct c as [[] [] [] [] [] [] [] []]; reflexivity.

Lemma upper_replace_upper (c : ascii) :
  upper_char (if Ascii.eqb (upper_char c) "U" then "C"%char else upper_char c)
  = (if Ascii.eqb (upper_char c) "U" then "C"%char else upper_char c).
Proof. each_char c. Qed.

Lemma replace_replace (c : ascii) :
  (if Ascii.eqb (if Ascii.eqb c "U" then "C" else c) "U" then "C"%char
   else if Ascii.eqb c "U" then "C"%char else c)
  = (if Ascii.eqb c "U" then "C"%char else c).
Proof. each_char c. Qed.

Lemma upper_normalize (s : string) : upper (normalize s) = normalize s.
Proof.
  unfold normalize, upper, replace_char. rewrite !map_str_map_str.
  apply map_str_ext. intros c. apply upper_replace_upper.
Qed.

Lemma replace_normalize (s : string) :
  replace_char "U" "C" (normalize s) = normalize s.
Proof.
  unfold normalize, upper, replace_char. rewrite !map_str_map_str.
  apply map_str_ext. intros c. apply replace_replace.
Qed.

Lemma slice_to_normalized (k : Z) (s : string) :
  replace_char "U" "C" (slice_to k (upper (normalize s)))
  = replace_char "U" "C" (slice_to k (upper s)).
Proof.
  rewrite upper_normalize. unfold normalize at 1, replace_char.
  rewrite slice_to_map_str, map_str_map_str.
  apply map_str_ext. intros c. apply replace_replace.
Qed.

(** ** The validator *)

(** C10: the validator judges a sequence on its normalised form: for every
    string and every window, [check_seq] gives the same answer on the string
    and on its upper-cased, U-to-C form; the lower-case letters and [U] are
    outside the alphabet, and yet ["acu"] is admitted. *)
Theorem check_seq_normalizes :
  (forall (s : string) (m : Z), check_seq s m = check_seq (normalize s) m)
  /\ forall_chars (fun c => negb (in_alphabet c))
                  "abcdefghijklmnopqrstuvwxyzU" = true
  /\ check_seq "acu" default_max_scan = true
  /\ check_seq "ACU" default_max_scan = true
  /\ normalize "acu" = "ACC".
Proof.
  split; [| repeat split].
  intros s m. unfold check_seq. now rewrite slice_to_normalized.
Qed.

(** On a string without a line break the pattern admits exactly the strings
    over the alphabet. *)
Lemma valid_aa_match_no_newline (s : string) :
  mem_char LF s = false -> valid_aa_match s = forall_chars in_alphabet s.
Proof.
  induction s as [|c r IH]; intros H; [reflexivity |].
  cbn [mem_char] in H. apply orb_false_iff in H as [Hc Hr].
  change (valid_aa_match (String c r))
    with (at_dollar (String c r) || (in_alphabet c && valid_aa_match r)).
  rewrite (IH Hr). cbn [forall_chars].
  unfold at_dollar. cbn [String.eqb].
  rewrite Ascii.eqb_sym in Hc. rewrite Hc. reflexivity.
Qed.

(** The pattern as a whole: a string over the alphabet, with or without one
    final line break. *)
Lemma valid_aa_match_spec (s : string) :
  valid_aa_match s = true <->
  exists w, forall_chars in_alphabet w = true /\ (s = w \/ s = w ++ nl).
Proof.
  split.
  - induction s as [|c r IH]; intros H.
    + exists ""; split; [reflexivity | now left].
    + change (valid_aa_match (String c r))
        with (at_dollar (String c r) || (in_alphabet c && valid_aa_match r)) in H.
      apply orb_true_iff in H as [H | H].
      * unfold at_dollar in H.
        apply orb_true_iff in H as [H | H]; apply String.eqb_eq in H;
          [discriminate H |].
        rewrite H. exists ""; split; [reflexivity | now right].
      * apply andb_true_iff in H as [Hc Hr].
        destruct (IH Hr) as (w & Hw & E).
        exists (String c w); split; [simpl; now rewrite Hc, Hw |].
        destruct E as [-> | ->]; [now left | now right].
  - intros (w & Hw & E). revert s E.
    induction w as [|c r IH]; intros s E.
    + destruct E as [-> | ->]; reflexivity.
    + simpl in Hw. apply andb_true_iff in Hw as [Hc Hr].
      assert (E' : exists t, s = String c t /\ (t = r \/ t = r ++ nl)).
      { destruct E as [-> | ->]; eexists; split; try reflexivity; auto. }
      destruct E' as (t & -> & E').
      change (valid_aa_match (String c t))
        with (at_dollar (String c t) || (in_alphabet c && valid_aa_match t)).
      rewrite Hc, (IH Hr t E'). apply orb_true_r.
Qed.

(** C4: on input that is already upper-cased, free of [U] and no longer than
    the window, [check_seq] admits ["A"] followed by a line break, although
    the line break is not one of the 20 letters; the three sample verdicts
    of the specification hold. *)
Theorem check_seq_trailing_newline :
  upper seq_trailing_newline = seq_trailing_newline
  /\ replace_char "U" "C" seq_trailing_newline = seq_trailing_newline
  /\ (Z.of_nat (String.length seq_trailing_newline) <= default_max_scan + 15)%Z
  /\ check_seq seq_trailing_newline default_max_scan = true
  /\ forall_chars in_alphabet seq_trailing_newline = false
  /\ check_seq "ACDEFGHIKLMNPQRSTVWY" default_max_scan = true
  /\ check_seq "ACDXYZ" default_max_scan = false
  /\ check_seq "" default_max_scan = true.
Proof. repeat split; try reflexivity. vm_compute. discriminate. Qed.

(** Away from line breaks the verdict is the one the specification gives:
    every inspected character is one of the 20 letters. *)
Lemma check_seq_no_newline (s : string) (m : Z) :
  mem_char LF s = false ->
  upper s = s ->
  replace_char "U" "C" s = s ->
  (Z.of_nat (String.length s) <= m + 15)%Z ->
  check_seq s m = forall_chars in_alphabet s.
Proof.
  intros Hn Hu Hr Hl. unfold check_seq.
  rewrite Hu, (slice_to_all _ _ Hl), Hr, (valid_aa_match_no_newline _ Hn).
  now destruct (forall_chars in_alphabet s).
Qed.

(** ** The parser *)

(** Up to the default window the two slices coincide: on a stored sequence
    the validator with its default window and the validator with the run's
    window agree. *)
Lemma check_default_window (v : value) (m : Z) :
  (16 <= m <= default_max_scan)%Z ->
  check_seq (process_sequence v m) default_max_scan
  = check_seq (process_sequence v m) m.
Proof.
  intros Hm. unfold check_seq.
  assert (L : (String.length (upper (process_sequence v m))
               <= Z.to_nat (m + 15))%nat).
  { unfold upper. rewrite map_str_length. unfold process_sequence.
    rewrite slice_to_length by lia. lia. }
  rewrite !slice_to_all; [reflexivity | lia |].
  unfold default_max_scan in *. lia.
Qed.

(** C1: with [max_scan = 81] the parser keeps 96 characters of a sequence
    while the validator, called with its default window, inspects 95 of
    them: a record whose 96th residue is [X] survives, although the
    validator run with the same window rejects it. *)
Theorem fasta_reader_window_mismatch :
  fasta_reader long_tail_file 81
  = inr ([mkRow 0 (Str "id1") long_tail_sequence], None)
  /\ Z.of_nat (String.length long_tail_sequence) = (81 + 15)%Z
  /\ forall_chars in_alphabet long_tail_sequence = false
  /\ check_seq long_tail_sequence 81 = false
  /\ check_seq long_tail_sequence default_max_scan = true.
Proof. repeat split; vm_compute; reflexivity. Qed.

(** C2: the record [>id1 / ACU] is stored with its [U]: the whole-cell
    replacement of line 53 leaves ["ACU"] as it is, where the normalised
    form is ["ACC"]. *)
Theorem fasta_reader_keeps_U :
  fasta_reader acu_file default_max_scan
  = inr ([mkRow 0 (Str "id1") "ACU"], None)
  /\ fasta_reader acc_file default_max_scan
     = inr ([mkRow 0 (Str "id1") "ACC"], None)
  /\ slice_to (default_max_scan + 15) (normalize "ACU") = "ACC"
  /\ series_replace_U_C "ACU" = "ACU"
  /\ series_replace_U_C "U" = "C".
Proof. repeat split; vm_compute; reflexivity. Qed.

Lemma parse_row_fields (i : nat) (cell : value) (m : Z) :
  parse_row i cell m = mkRow i (identifier_of cell) (processed cell m).
Proof.
  unfold parse_row, identifier_of, processed, raw_sequence_of.
  now destruct (str_split_expand cell).
Qed.

Lemma rows_from_length (k : nat) (file : list value) (m : Z) :
  List.length (rows_from k file m) = List.length file.
Proof.
  revert k; induction file as [|c r IH]; intros k; simpl;
    [reflexivity | now rewrite IH].
Qed.

Lemma rows_from_In (r : Row) (file : list value) (m : Z) (k : nat) :
  In r (rows_from k file m) <->
  exists i cell, nth_error file i = Some cell /\ r = parse_row (k + i) cell m.
Proof.
  revert k; induction file as [|c rest IH]; intros k; simpl.
  - split; [tauto | intros ([|i] & cell & H & _); discriminate H].
  - rewrite IH. split.
    + intros [<- | (i & cell & H & ->)].
      * exists 0, c. now rewrite Nat.add_0_r.
      * exists (S i), cell. now rewrite Nat.add_succ_r.
    + intros ([|i] & cell & H & ->); simpl in H.
      * injection H as ->. left. now rewrite Nat.add_0_r.
      * right. exists i, cell. now rewrite Nat.add_succ_r.
Qed.

Lemma rows_from_index (file : list value) (m : Z) (k : nat) :
  map index (rows_from k file m) = seq k (List.length file).
Proof.
  revert k; induction file as [|c rest IH]; intros k; simpl;
    [reflexivity |].
  rewrite IH, parse_row_fields. reflexivity.
Qed.

(** The three filters of lines 58-60, taken together. *)
Lemma three_filters (rows : list Row) :
  filter row_notna (filter not_empty_not_none (filter check rows))
  = filter survives rows.
Proof.
  induction rows as [|r rows IH]; [reflexivity |].
  unfold survives in *. cbn [filter].
  destruct (check r); cbn [filter andb]; [| exact IH].
  destruct (not_empty_not_none r); cbn [filter andb]; [| exact IH].
  destruct (row_notna r); now rewrite IH.
Qed.

(** What [fasta_reader] returns on a file it parses. *)
Lemma fasta_reader_inr (file : list value) (m : Z) (df : list Row)
      (printed : option nat) :
  fasta_reader file m = inr (df, printed) ->
  df = filter survives (rows_from 0 file m)
  /\ printed = (if Nat.eqb (List.length file) (List.length df) then None
                else Some (List.length file - List.length df)).
Proof.
  unfold fasta_reader. destruct (negb (splits_in_two file)); [discriminate |].
  intros H. injection H as Hdf Hp.
  assert (E : df = filter survives (rows_from 0 file m)).
  { rewrite <- Hdf. apply three_filters. }
  split; [exact E |].
  rewrite <- Hp, Hdf, rows_from_length. reflexivity.
Qed.

Lemma absent_sequence_processed (m : Z) :
  (16 <= m)%Z -> process_sequence NoneV m = "NONE".
Proof.
  intros H. unfold process_sequence. apply slice_to_all. simpl. lia.
Qed.

Lemma survives_drop_condition (i : nat) (cell : value) (m : Z) :
  (16 <= m <= default_max_scan)%Z ->
  survives (parse_row i cell m) = negb (drop_condition cell m).
Proof.
  intros Hm. rewrite parse_row_fields.
  unfold survives, drop_condition, check, not_empty_not_none, row_notna.
  cbn [Sequence Accession]. unfold processed.
  rewrite (check_default_window _ m Hm).
  destruct (check_seq (process_sequence (raw_sequence_of cell) m) m);
    cbn [negb orb andb]; [| reflexivity].
  destruct (String.eqb (process_sequence (raw_sequence_of cell) m) "") eqn:E1;
    cbn [negb orb andb]; [reflexivity |].
  destruct (String.eqb (process_sequence (raw_sequence_of cell) m) "NONE")
    eqn:E2; cbn [negb orb andb]; [reflexivity |].
  destruct (notna (identifier_of cell)) eqn:E3; cbn [negb orb andb];
    [| reflexivity].
  unfold identifier_of, raw_sequence_of in *.
  destruct cell as [s | |]; try discriminate E3.
  cbn [str_split_expand] in *. destruct (split_once LF s) as [a [t|]];
    cbn [snd notna negb] in *; [reflexivity |].
  rewrite (absent_sequence_processed m) in E2 by lia. discriminate E2.
Qed.

(** C5: with [max_scan = 81] the drop rule fails: the validator, run with
    the window of the run, rejects the processed sequence of the record (its
    96th residue is [X]), so a drop condition holds, and the record is in
    the table all the same, because line 57 validates with the default
    window. *)
Theorem fasta_reader_keeps_rejected_record :
  nth_error long_tail_file 0 = Some long_tail_cell
  /\ processed long_tail_cell 81 = long_tail_sequence
  /\ check_seq (processed long_tail_cell 81) 81 = false
  /\ drop_condition long_tail_cell 81 = true
  /\ fasta_reader long_tail_file 81
     = inr ([parse_row 0 long_tail_cell 81], None)
  /\ In (parse_row 0 long_tail_cell 81) [parse_row 0 long_tail_cell 81].
Proof.
  repeat split; try (vm_compute; reflexivity). now left.
Qed.

(** X17: up to the default window the drop rule holds: for
    [16 <= max_scan <= 80] a parsed record is in the table exactly when none
    of the drop conditions holds; a block with an identifier and no line
    break, and a block whose sequence text is empty, are dropped; the table
    holds parsed records only. *)
Theorem fasta_reader_drop_rule (file : list value) (m : Z) (df : list Row)
        (printed : option nat) :
  (16 <= m <= 80)%Z ->
  fasta_reader file m = inr (df, printed) ->
  (forall i cell, nth_error file i = Some cell ->
     (In (parse_row i cell m) df <-> drop_condition cell m = false))
  /\ (forall i id, nth_error file i = Some (Str id) ->
        mem_char LF id = false -> ~ In (parse_row i (Str id) m) df)
  /\ (forall i id, nth_error file i = Some (Str (id ++ nl)) ->
        mem_char LF id = false -> ~ In (parse_row i (Str (id ++ nl)) m) df)
  /\ (forall r, In r df ->
        exists i cell, nth_error file i = Some cell /\ r = parse_row i cell m).
Proof.
  intros Hm H. apply fasta_reader_inr in H as [-> _].
  assert (Main : forall i cell, nth_error file i = Some cell ->
            (In (parse_row i cell m) (filter survives (rows_from 0 file m))
             <-> drop_condition cell m = false)).
  { intros i cell Hc. rewrite filter_In, survives_drop_condition by exact Hm.
    rewrite negb_true_iff. split; [tauto |].
    intros Hd; split; [| exact Hd].
    apply rows_from_In. now exists i, cell. }
  assert (Split : forall id, mem_char LF id = false ->
            split_once LF id = (id, None)
            /\ split_once LF (id ++ nl) = (id, Some "")).
  { induction id as [|c r IH]; intros Hn; [split; reflexivity |].
    cbn [mem_char] in Hn. apply orb_false_iff in Hn as [Hc Hr].
    rewrite Ascii.eqb_sym in Hc. destruct (IH Hr) as [E1 E2].
    cbn [split_once append]. rewrite Hc, E1.
    change (r ++ nl) with (r ++ nl) in E2. rewrite E2. split; reflexivity. }
  split; [exact Main | split; [| split]].
  - intros i id Hc Hn Hin. apply (Main _ _ Hc) in Hin.
    unfold drop_condition, raw_sequence_of in Hin.
    cbn [str_split_expand] in Hin.
    rewrite (proj1 (Split id Hn)) in Hin. cbn [snd notna negb] in Hin.
    rewrite orb_true_r in Hin. discriminate Hin.
  - intros i id Hc Hn Hin. apply (Main _ _ Hc) in Hin.
    unfold drop_condition, processed, raw_sequence_of in Hin.
    cbn [str_split_expand] in Hin.
    rewrite (proj2 (Split id Hn)) in Hin. cbn [snd] in Hin.
    assert (E : process_sequence (Str "") m = "").
    { unfold process_sequence. apply slice_to_all. simpl. lia. }
    rewrite E in Hin. cbn [String.eqb] in Hin.
    rewrite orb_true_r in Hin. discriminate Hin.
  - intros r Hin. apply filter_In in Hin as [Hin _].
    apply rows_from_In in Hin. exact Hin.
Qed.

Lemma fasta_reader_drop_rule_witness :
  In (parse_row 1 (Str ("id2" ++ nl ++ "ACD" ++ nl)) 16)
     [mkRow 1 (Str "id2") "ACD"]
  <-> drop_condition (Str ("id2" ++ nl ++ "ACD" ++ nl)) 16 = false.
Proof.
  apply (proj1 (fasta_reader_drop_rule bare_identifier_file 16
                  [mkRow 1 (Str "id2") "ACD"] (Some 1)
                  ltac:(lia) eq_refl) 1).
  reflexivity.
Defined.

(** Filtering rows keeps their index labels distinct. *)
Lemma kept_rows_distinct (keep : Row -> bool) (rows : list Row) :
  NoDup (map index rows) -> NoDup (map index (filter keep rows)).
Proof.
  induction rows as [|r rows IH]; cbn [filter map]; intros H;
    [constructor |].
  apply NoDup_cons_iff in H as [Hr Hrows].
  destruct (keep r); [| now apply IH].
  cbn [map]. apply NoDup_cons; [| now apply IH].
  contradict Hr.
  apply in_map_iff in Hr as (r' & E & Hin). apply filter_In in Hin as [Hin _].
  rewrite <- E. now apply in_map.
Qed.

(** C6: on a file that parses, the table is the list of surviving records,
    one row each; the count told to the operator (nothing is printed when
    it is zero) is the number of records parsed minus the number of
    survivors; ten records of which three fail validation give the count 3
    and a table of 7 rows. *)
Theorem fasta_reader_attrition (file : list value) (m : Z) (df : list Row)
        (printed : option nat) :
  fasta_reader file m = inr (df, printed) ->
  let total := List.length file in
  let surviving := List.length (filter survives (rows_from 0 file m)) in
  df = filter survives (rows_from 0 file m)
  /\ NoDup (map index df)
  /\ List.length df = surviving
  /\ (surviving <= total)%nat
  /\ reported printed = (total - surviving)%nat
  /\ (printed = None <-> surviving = total)
  /\ fasta_reader ten_records 16 = inr (seven_rows, Some 3)
  /\ List.length ten_records = 10%nat
  /\ List.length seven_rows = 7%nat.
Proof.
  intros H total surviving. apply fasta_reader_inr in H as [Hdf Hp].
  assert (Hle : (surviving <= total)%nat).
  { unfold surviving, total. rewrite <- (rows_from_length 0 file m).
    apply filter_length_le. }
  assert (Hlen : List.length df = surviving) by now rewrite Hdf.
  split; [exact Hdf |].
  split.
  { rewrite Hdf. apply kept_rows_distinct. rewrite rows_from_index.
    apply seq_NoDup. }
  split; [exact Hlen |].
  split; [exact Hle |].
  rewrite Hlen in Hp. fold total in Hp.
  split; [| split].
  - rewrite Hp. destruct (Nat.eqb_spec total surviving) as [E | E]; simpl; lia.
  - rewrite Hp. destruct (Nat.eqb_spec total surviving) as [E | E].
    + split; [intros _; now symmetry | reflexivity].
    + split; [discriminate | intros E'; now symmetry in E'].
  - repeat split; vm_compute; reflexivity.
Qed.

Lemma fasta_reader_attrition_witness :
  reported (Some 3) = (10 - 7)%nat /\ List.length seven_rows = 7%nat.
Proof.
  pose proof (fasta_reader_attrition ten_records 16 seven_rows (Some 3)
                eq_refl) as H.
  cbv zeta in H.
  destruct H as (_ & _ & Hl & _ & Hr & _).
  split; [exact Hr | exact Hl].
Defined.

(** ** Configuration *)

(** C7, as stated, fails: the worker count ["0"] is an integer below 1, and
    [get_args] accepts it; the run goes on to list the directory and read
    the first file. *)
Lemma worker_count_zero_not_rejected :
  PyInt.int "0" = Some 0%Z
  /\ get_args 8 zero_workers = inr (mkArgs "seqs" "result" 80 0 false)
  /\ (forall msg, get_args 8 zero_workers <> inl msg)
  /\ forall (F : Type) (around2 : F -> F) (D : Detector F) to_csv completion,
     exists evs o,
       script around2 8 (fun _ => ["a.fa"]) (fun _ => acc_file)
              to_csv completion zero_workers
       = (Glob "seqs" :: ReadCsv "a.fa" :: evs, o).
Proof.
  split; [reflexivity | split; [reflexivity | split]].
  - intros msg H. discriminate H.
  - intros F around2 D to_csv completion. unfold script.
    change (get_args 8 zero_workers)
      with (@inr string Args (mkArgs "seqs" "result" 80 0 false)).
    cbn [args_path run_files].
    destruct (main around2 (fun _ => acc_file) to_csv completion
                   "a.fa" _ _ _);
      eexists; eexists; reflexivity.
Qed.

Lemma check_max_scan_rejects (m : string) :
  (forall z, PyInt.int m = Some z -> (z < 16)%Z) ->
  exists msg, check_max_scan m = inl (ArgumentTypeError msg).
Proof.
  intros H. unfold check_max_scan.
  destruct (PyInt.int m) as [z|]; [| eexists; reflexivity].
  specialize (H z eq_refl). apply Z.ltb_lt in H. rewrite H.
  eexists; reflexivity.
Qed.

Lemma check_max_scan_accepts (m : string) (z : Z) :
  check_max_scan m = inr z <-> PyInt.int m = Some z /\ (16 <= z)%Z.
Proof.
  unfold check_max_scan. destruct (PyInt.int m) as [y|].
  - destruct (Z.ltb_spec y 16); split.
    + discriminate.
    + intros [E Hz]. injection E as ->. lia.
    + intros E. injection E as ->. split; [reflexivity | lia].
    + intros [E _]. injection E as ->. reflexivity.
  - split; [discriminate | intros [E _]; discriminate E].
Qed.

(** C7, amended: on ASCII option values, a scan window that is not an
    integer or is below 16, and a worker count that is not an integer, make
    [get_args] report a usage error, and the script then ends without any
    file-system event. *)
Theorem invalid_configuration_rejected {F : Type} (around2 : F -> F)
        {D : Detector F} (cpu_count : Z) glob_fa read_csv to_csv completion
        (cl : CommandLine) :
  (exists m, opt_max_scan cl = Some m /\ is_ascii m = true
             /\ forall z, PyInt.int m = Some z -> (z < 16)%Z)
  \/ (exists n, opt_ncores cl = Some n /\ is_ascii n = true
                /\ PyInt.int n = None) ->
  exists msg,
    get_args cpu_count cl = inl msg
    /\ script around2 cpu_count glob_fa read_csv to_csv completion cl
       = ([], UsageError msg).
Proof.
  intros H.
  assert (R : exists msg, get_args cpu_count cl = inl msg).
  { unfold get_args. destruct (opt_path cl) as [p|]; [| eexists; reflexivity].
    destruct H as [(m & -> & _ & Hm) | (n & -> & _ & Hn)].
    - destruct (check_max_scan_rejects m Hm) as (msg & ->).
      eexists; reflexivity.
    - rewrite Hn. destruct (opt_max_scan cl) as [m|].
      + destruct (check_max_scan m) as [[msg | | name] | z];
          eexists; reflexivity.
      + eexists; reflexivity. }
  destruct R as (msg & R). exists msg. split; [exact R |].
  unfold script. now rewrite R.
Qed.

Lemma invalid_configuration_rejected_witness :
  exists msg,
    get_args 8 small_window = inl msg
    /\ script sample_around2 (D := sample_detector) 8
              (fun _ => ["a.fa"]) (fun _ => acc_file) written last_first
              small_window
       = ([], UsageError msg).
Proof.
  apply invalid_configuration_rejected.
  left. exists "15". split; [reflexivity |]. split; [reflexivity |].
  intros z E. vm_compute in E. injection E as <-. lia.
Defined.

(** ** The per-record prediction *)

(** C9: of the twelve fields, the first is the object's [y_scores] rounded
    element by element and the sixth its [final_score_sp] rounded; the ten
    others, the aggregates of the secondary and tertiary stage among them,
    are the object's attributes as they are; an exception that leaves the
    detector leaves [razor_predict]. *)
Theorem razor_predict_rounds_two_fields {F : Type} (around2 : F -> F)
        {D : Detector F} (seq : string) (max_scan : Z) :
  match run_detector seq max_scan with
  | inl e => razor_predict around2 seq max_scan = inl e
  | inr o =>
      exists b,
        razor_predict around2 seq max_scan = inr b
        /\ Y_score b = map around2 (y_scores o)
        /\ SP_Prediction b = preds o
        /\ Max_C b = c_scores o
        /\ Probable_Cleavage_after b = cleavage_sites o
        /\ Cleavage_after_residue b = cleav o
        /\ SP_score b = around2 (final_score_sp o)
        /\ Fungi_Scores b = fungi_scores o
        /\ Fungi_Prediction b = fungi_preds o
        /\ Fungi_scores_Median b = final_score_fungi o
        /\ Toxin_Scores b = toxin_scores o
        /\ Toxin_Prediction b = toxin_preds o
        /\ Toxin_scores_Median b = final_score_toxin o
  end.
Proof.
  unfold razor_predict.
  destruct (run_detector seq max_scan) as [e | o]; [reflexivity |].
  exists (collect around2 o). repeat split.
Qed.

(** The ten fields that are not rounded do not depend on the rounding. *)
Lemma collect_rounding_independent {F : Type} (r1 r2 : F -> F) (o : RAZOR F) :
  let b1 := collect r1 o in
  let b2 := collect r2 o in
  SP_Prediction b1 = SP_Prediction b2
  /\ Max_C b1 = Max_C b2
  /\ Probable_Cleavage_after b1 = Probable_Cleavage_after b2
  /\ Cleavage_after_residue b1 = Cleavage_after_residue b2
  /\ Fungi_Scores b1 = Fungi_Scores b2
  /\ Fungi_Prediction b1 = Fungi_Prediction b2
  /\ Fungi_scores_Median b1 = Fungi_scores_Median b2
  /\ Toxin_Scores b1 = Toxin_Scores b2
  /\ Toxin_Prediction b1 = Toxin_Prediction b2
  /\ Toxin_scores_Median b1 = Toxin_scores_Median b2.
Proof. repeat split. Qed.

Example razor_predict_sample :
  razor_predict sample_around2 (D := sample_detector) "MKV" 80
  = inr (mkBundle [12300; 600]%Z [true; false] [9]%Z [21]%Z 21%Z 4200%Z
                  [7531]%Z [true] 7531%Z [] [] 0%Z).
Proof. reflexivity. Qed.

(** C8, on the modelled classifier: whenever the secondary or the tertiary
    stage is inapplicable, the call returns a bundle, no error leaves it,
    and the fields of each inapplicable stage, 7-9 for the secondary and
    10-12 for the tertiary, hold their defaults: empty sequences and a zero
    aggregate. *)
Theorem optional_stage_defaults {F : Type} (zero : F) (around2 : F -> F)
        primary fungal toxic (seq : string) (max_scan : Z) :
  let D := spec_detector zero primary fungal toxic in
  let o1 := after_predict zero primary seq max_scan in
  let o2 := after_fungi zero primary fungal seq max_scan in
  fungal o1 = None \/ toxic o2 = None ->
  exists b,
    razor_predict around2 (D := D) seq max_scan = inr b
    /\ (fungal o1 = None ->
        Fungi_Scores b = [] /\ Fungi_Prediction b = []
        /\ Fungi_scores_Median b = zero)
    /\ (toxic o2 = None ->
        Toxin_Scores b = [] /\ Toxin_Prediction b = []
        /\ Toxin_scores_Median b = zero).
Proof.
  intros D o1 o2 H.
  assert (P : @predict F D (mkRAZOR seq max_scan [] [] [] [] None zero
                                    [] [] zero [] [] zero) = (o1, None)).
  { unfold o1, after_predict. cbn [predict D spec_detector].
    unfold spec_predict. cbn [self_seq self_max_scan].
    destruct (primary seq max_scan) as [[[[[ys ps] cs] sites] fc] sp].
    reflexivity. }
  assert (T : fungi_scores o1 = [] /\ fungi_preds o1 = []
              /\ final_score_fungi o1 = zero /\ toxin_scores o1 = []
              /\ toxin_preds o1 = [] /\ final_score_toxin o1 = zero).
  { unfold o1, after_predict, spec_predict. cbn [self_seq self_max_scan].
    destruct (primary seq max_scan) as [[[[[ys ps] cs] sites] fc] sp].
    cbn. repeat split. }
  destruct T as (T1 & T2 & T3 & T4 & T5 & T6).
  destruct (fungal o1) as [[[fs fp] fm] |] eqn:Hf.
  - destruct H as [H | Ht]; [discriminate H |].
    assert (E2 : spec_fungi fungal o1 = (o2, None)).
    { unfold o2, after_fungi. fold o1. unfold spec_fungi. rewrite Hf.
      reflexivity. }
    exists (collect around2 o2). split; [| split].
    + unfold razor_predict, run_detector.
      cbn [RAZOR_new D spec_detector spec_new]. fold D. rewrite P.
      unfold optional_stages. cbn [fungi toxin D spec_detector].
      rewrite E2. unfold spec_toxin. rewrite Ht. reflexivity.
    + discriminate.
    + intros _. unfold o2, after_fungi. fold o1. unfold spec_fungi.
      rewrite Hf. cbn. repeat split; assumption.
  - exists (collect around2 o1). split; [| split].
    + unfold razor_predict, run_detector.
      cbn [RAZOR_new D spec_detector spec_new]. fold D. rewrite P.
      unfold optional_stages. cbn [fungi D spec_detector]. unfold spec_fungi.
      rewrite Hf. reflexivity.
    + intros _. cbn. repeat split; assumption.
    + intros _. cbn. repeat split; assumption.
Qed.

Lemma optional_stage_defaults_witness :
  (exists b,
     razor_predict sample_around2
       (D := spec_detector 0%Z sample_primary no_fungal sample_toxic)
       "MKV" 80 = inr b
     /\ (no_fungal (after_predict 0%Z sample_primary "MKV" 80) = None ->
         Fungi_Scores b = [] /\ Fungi_Prediction b = []
         /\ Fungi_scores_Median b = 0%Z)
     /\ (sample_toxic (after_fungi 0%Z sample_primary no_fungal "MKV" 80)
         = None ->
         Toxin_Scores b = [] /\ Toxin_Prediction b = []
         /\ Toxin_scores_Median b = 0%Z))
  /\ (exists b,
        razor_predict sample_around2 (D := sample_detector) "MKV" 80 = inr b
        /\ (sample_fungal (after_predict 0%Z sample_primary "MKV" 80) = None ->
            Fungi_Scores b = [] /\ Fungi_Prediction b = []
            /\ Fungi_scores_Median b = 0%Z)
        /\ (sample_toxic
              (after_fungi 0%Z sample_primary sample_fungal "MKV" 80) = None ->
            Toxin_Scores b = [] /\ Toxin_Prediction b = []
            /\ Toxin_scores_Median b = 0%Z)).
Proof.
  split.
  - apply (optional_stage_defaults 0%Z sample_around2 sample_primary
             no_fungal sample_toxic "MKV" 80).
    left. reflexivity.
  - apply (optional_stage_defaults 0%Z sample_around2 sample_primary
             sample_fungal sample_toxic "MKV" 80).
    right. reflexivity.
Defined.

(** * Further properties of the code *)

(** ** The validator beyond the claims *)

Lemma LF_upper_char (c : ascii) :
  Ascii.eqb LF (upper_char c) = Ascii.eqb LF c.
Proof. each_char c. Qed.

Lemma LF_replace_U_C (c : ascii) :
  Ascii.eqb LF (if Ascii.eqb c "U" then "C"%char else c) = Ascii.eqb LF c.
Proof. each_char c. Qed.

Lemma mem_char_map_str (a : ascii) (f : ascii -> ascii) (s : string) :
  (forall c, Ascii.eqb a (f c) = Ascii.eqb a c) ->
  mem_char a (map_str f s) = mem_char a s.
Proof.
  intros E. induction s as [|c r IH]; cbn [map_str mem_char];
    [reflexivity | now rewrite E, IH].
Qed.

Lemma mem_char_take (a : ascii) (n : nat) (s : string) :
  mem_char a s = false -> mem_char a (take n s) = false.
Proof.
  revert n; induction s as [|c r IH]; intros [|n] H; try reflexivity.
  cbn [mem_char take] in *. apply orb_false_iff in H as [Hc Hr].
  now rewrite Hc, (IH n Hr).
Qed.

Lemma mem_char_slice_to (a : ascii) (k : Z) (s : string) :
  mem_char a s = false -> mem_char a (slice_to k s) = false.
Proof. intros H. unfold slice_to. destruct (0 <=? k)%Z; now apply mem_char_take. Qed.

Lemma normalize_slice_to (k : Z) (s : string) :
  replace_char "U" "C" (slice_to k (upper s)) = normalize (slice_to k s).
Proof. unfold normalize, upper. now rewrite slice_to_map_str. Qed.

Lemma check_seq_no_LF (s : string) (m : Z) :
  mem_char LF s = false ->
  check_seq s m
  = forall_chars in_alphabet (normalize (slice_to (m + 15) s)).
Proof.
  intros H. unfold check_seq. rewrite normalize_slice_to.
  rewrite valid_aa_match_no_newline.
  - now destruct (forall_chars in_alphabet _).
  - unfold normalize, replace_char, upper.
    rewrite (mem_char_map_str LF _ _ LF_replace_U_C).
    rewrite (mem_char_map_str LF _ _ LF_upper_char).
    now apply mem_char_slice_to.
Qed.

(** X1: on a string without a line break, [check_seq] is true exactly when
    every character of the inspected slice, upper-cased and with U
    rewritten to C, is one of the 20 letters. *)
Theorem check_seq_inspected_slice (s : string) (m : Z) :
  mem_char LF s = false ->
  check_seq s m
  = forall_chars in_alphabet (normalize (slice_to (m + 15) s)).
Proof. exact (check_seq_no_LF s m). Qed.

Lemma check_seq_inspected_slice_witness :
  check_seq "mkvuX" (-12)
  = forall_chars in_alphabet (normalize (slice_to (-12 + 15) "mkvuX")).
Proof. apply check_seq_inspected_slice. reflexivity. Defined.

(** X2: the verdict depends on the inspected slice only: two strings with
    the same first [max_scan + 15] characters get the same verdict. *)
Theorem check_seq_slice_only (s t : string) (m : Z) :
  slice_to (m + 15) s = slice_to (m + 15) t ->
  check_seq s m = check_seq t m.
Proof.
  intros H. unfold check_seq. now rewrite !normalize_slice_to, H.
Qed.

Lemma check_seq_slice_only_witness :
  check_seq "MKVX" (-12) = check_seq "MKVAAAA" (-12).
Proof. apply check_seq_slice_only. reflexivity. Defined.

Lemma take_take (n n' : nat) (s : string) :
  (n <= n')%nat -> take n (take n' s) = take n s.
Proof.
  revert n n'; induction s as [|c r IH]; intros [|n] [|n'] H;
    try reflexivity; try lia.
  cbn [take]. rewrite IH; [reflexivity | lia].
Qed.

(** Every prefix of a string the pattern admits is admitted. *)
Lemma valid_aa_match_take (n : nat) (s : string) :
  valid_aa_match s = true -> valid_aa_match (take n s) = true.
Proof.
  revert n; induction s as [|c r IH]; intros [|n] H; try reflexivity.
  change (valid_aa_match (String c r))
    with (at_dollar (String c r) || (in_alphabet c && valid_aa_match r)) in H.
  cbn [take].
  change (valid_aa_match (String c (take n r)))
    with (at_dollar (String c (take n r))
          || (in_alphabet c && valid_aa_match (take n r))).
  apply orb_true_iff in H as [H | H].
  - unfold at_dollar in H.
    apply orb_true_iff in H as [H | H]; apply String.eqb_eq in H;
      [discriminate H |].
    injection H as -> ->. now destruct n.
  - apply andb_true_iff in H as [Hc Hr].
    rewrite Hc, (IH n Hr). apply orb_true_r.
Qed.

(** X3: narrowing the window never turns acceptance into rejection: a
    sequence admitted with window [m'] is admitted with every smaller
    window [m], as long as the slice length [m + 15] is not negative. *)
Theorem check_seq_narrower_window (s : string) (m m' : Z) :
  (0 <= m + 15)%Z -> (m <= m')%Z ->
  check_seq s m' = true -> check_seq s m = true.
Proof.
  intros H0 Hle. unfold check_seq, slice_to.
  destruct (Z.leb_spec 0 (m + 15)); [| lia].
  destruct (Z.leb_spec 0 (m' + 15)); [| lia].
  destruct (valid_aa_match (replace_char "U" "C"
              (take (Z.to_nat (m' + 15)) (upper s)))) eqn:E; [| discriminate].
  intros _.
  rewrite <- (take_take (Z.to_nat (m + 15)) (Z.to_nat (m' + 15))) by lia.
  unfold replace_char in *. rewrite <- take_map_str.
  now rewrite (valid_aa_match_take _ _ E).
Qed.

Lemma check_seq_narrower_window_witness : check_seq "MKV" 16 = true.
Proof.
  apply (check_seq_narrower_window "MKV" 16 80);
    [lia | lia | reflexivity].
Defined.

(** ** The parser beyond the claims *)

Lemma seq_increasing (k n : nat) : StronglySorted lt (seq k n).
Proof.
  revert k; induction n as [|n IH]; intros k; cbn [seq]; constructor.
  - apply IH.
  - apply Forall_forall. intros i Hi. apply in_seq in Hi. lia.
Qed.

Lemma kept_rows_increasing (keep : Row -> bool) (rows : list Row) :
  StronglySorted lt (map index rows) ->
  StronglySorted lt (map index (filter keep rows)).
Proof.
  induction rows as [|r rows IH]; cbn [filter map]; intros H;
    [constructor |].
  apply StronglySorted_inv in H as [Hs Hr].
  destruct (keep r); [| now apply IH].
  cbn [map]. constructor; [now apply IH |].
  rewrite Forall_forall in *. intros i Hi. apply Hr.
  apply in_map_iff in Hi as (r' & E & Hin). apply filter_In in Hin as [Hin _].
  rewrite <- E. now apply in_map.
Qed.

(** X4: the table keeps the order of the file: the index labels of the
    returned rows increase strictly and are positions of the file. *)
Theorem fasta_reader_keeps_order (file : list value) (m : Z) (df : list Row)
        (printed : option nat) :
  fasta_reader file m = inr (df, printed) ->
  StronglySorted lt (map index df)
  /\ Forall (fun r => (index r < List.length file)%nat) df.
Proof.
  intros H. apply fasta_reader_inr in H as [-> _]. split.
  - apply kept_rows_increasing. rewrite rows_from_index. apply seq_increasing.
  - apply Forall_forall. intros r Hr. apply filter_In in Hr as [Hr _].
    apply rows_from_In in Hr as (i & cell & Hc & ->).
    rewrite parse_row_fields. cbn [index Nat.add].
    apply nth_error_Some. rewrite Hc. discriminate.
Qed.

Lemma fasta_reader_keeps_order_witness :
  StronglySorted lt (map index seven_rows)
  /\ Forall (fun r => (index r < List.length ten_records)%nat) seven_rows.
Proof.
  exact (fasta_reader_keeps_order ten_records 16 seven_rows (Some 3) eq_refl).
Defined.

Lemma split_once_parts (sep : ascii) (s : string) :
  let '(a, t) := split_once sep s in
  mem_char sep a = false
  /\ match t with
     | Some r => s = a ++ String sep r
     | None => s = a
     end.
Proof.
  induction s as [|c r IH]; cbn [split_once]; [split; reflexivity |].
  destruct (Ascii.eqb_spec c sep) as [-> | Hne].
  - split; reflexivity.
  - destruct (split_once sep r) as [a t]. destruct IH as [Ha Ht].
    cbn [mem_char]. split.
    + rewrite Ha, orb_false_r. apply Ascii.eqb_neq. congruence.
    + destruct t; cbn [append]; now rewrite Ht at 1.
Qed.

(** X5: identifiers pass through verbatim: the [Accession] of a returned
    row is the text of its own block up to the first line break. *)
Theorem fasta_reader_identifier (file : list value) (m : Z) (df : list Row)
        (printed : option nat) (r : Row) :
  fasta_reader file m = inr (df, printed) ->
  In r df ->
  exists block id rest,
    nth_error file (index r) = Some (Str block)
    /\ Accession r = Str id
    /\ block = id ++ rest
    /\ mem_char LF id = false
    /\ (rest = "" \/ exists t, rest = String LF t).
Proof.
  intros H Hin. apply fasta_reader_inr in H as [-> _].
  apply filter_In in Hin as [Hin Hs].
  apply rows_from_In in Hin as (i & cell & Hc & ->).
  unfold survives, row_notna in Hs.
  apply andb_true_iff in Hs as [_ Hs].
  rewrite parse_row_fields in *. cbn [index Accession Nat.add] in *.
  destruct cell as [block | |]; try discriminate Hs.
  unfold identifier_of. cbn [str_split_expand].
  pose proof (split_once_parts LF block) as P.
  destruct (split_once LF block) as [a t]. destruct P as [Ha Ht].
  cbn [fst]. destruct t as [t|].
  - exists block, a, (String LF t). repeat split; eauto.
  - exists block, a, "". repeat split; auto.
    rewrite Ht. clear. induction a as [|c a IH]; cbn [append];
      [reflexivity | now rewrite <- IH].
Qed.

Lemma fasta_reader_identifier_witness :
  exists block id rest,
    nth_error ten_records 2 = Some (Str block)
    /\ Str "r2" = Str id
    /\ block = id ++ rest
    /\ mem_char LF id = false
    /\ (rest = "" \/ exists t, rest = String LF t).
Proof.
  apply (fasta_reader_identifier ten_records 16 seven_rows (Some 3)
           (mkRow 2 (Str "r2") "ACDEFGHIK") eq_refl).
  cbn. tauto.
Defined.

(** The stored value before the final slice. *)
Lemma process_sequence_unfold (v : value) (m : Z) :
  process_sequence v m
  = slice_to (m + 15)
      (series_replace_U_C (upper (astype_str (replace_regex_LF v)))).
Proof. reflexivity. Qed.

Lemma remove_char_absent (a : ascii) (s : string) :
  mem_char a (remove_char a s) = false.
Proof.
  induction s as [|c r IH]; cbn [remove_char]; [reflexivity |].
  destruct (Ascii.eqb_spec c a) as [E | E]; [exact IH |].
  cbn [mem_char]. rewrite IH, orb_false_r. apply Ascii.eqb_neq. congruence.
Qed.

Lemma remove_char_none (a : ascii) (s : string) :
  mem_char a s = false -> remove_char a s = s.
Proof.
  induction s as [|c r IH]; cbn [remove_char mem_char]; intros H;
    [reflexivity |].
  apply orb_false_iff in H as [Hc Hr]. rewrite Ascii.eqb_sym in Hc.
  now rewrite Hc, (IH Hr).
Qed.

Lemma upper_upper (s : string) : upper (upper s) = upper s.
Proof.
  unfold upper. rewrite map_str_map_str. apply map_str_ext.
  intros c. each_char c.
Qed.

Lemma series_replace_cases (s : string) :
  (s = "U" /\ series_replace_U_C s = "C")
  \/ (String.eqb s "U" = false /\ series_replace_U_C s = s).
Proof.
  unfold series_replace_U_C. destruct (String.eqb_spec s "U") as [-> | _];
    [left | right]; split; reflexivity.
Qed.

Lemma pre_slice_no_LF (v : value) :
  mem_char LF
    (series_replace_U_C (upper (astype_str (replace_regex_LF v)))) = false.
Proof.
  destruct (series_replace_cases (upper (astype_str (replace_regex_LF v))))
    as [[_ ->] | [_ ->]]; [reflexivity |].
  unfold upper. rewrite (mem_char_map_str LF _ _ LF_upper_char).
  destruct v as [s | |]; cbn [replace_regex_LF astype_str];
    [apply remove_char_absent | reflexivity | reflexivity].
Qed.

Lemma pre_slice_upper (v : value) :
  upper (series_replace_U_C (upper (astype_str (replace_regex_LF v))))
  = series_replace_U_C (upper (astype_str (replace_regex_LF v))).
Proof.
  destruct (series_replace_cases (upper (astype_str (replace_regex_LF v))))
    as [[_ ->] | [_ ->]]; [reflexivity | apply upper_upper].
Qed.

Lemma pre_slice_not_U (v : value) :
  String.eqb
    (series_replace_U_C (upper (astype_str (replace_regex_LF v)))) "U"
  = false.
Proof.
  destruct (series_replace_cases (upper (astype_str (replace_regex_LF v))))
    as [[_ ->] | [E ->]]; [reflexivity | exact E].
Qed.

Lemma process_sequence_no_LF (v : value) (m : Z) :
  mem_char LF (process_sequence v m) = false.
Proof.
  rewrite process_sequence_unfold. apply mem_char_slice_to, pre_slice_no_LF.
Qed.

Lemma process_sequence_upper (v : value) (m : Z) :
  upper (process_sequence v m) = process_sequence v m.
Proof.
  rewrite process_sequence_unfold. unfold upper at 1.
  rewrite <- slice_to_map_str. fold (upper (series_replace_U_C
    (upper (astype_str (replace_regex_LF v))))).
  now rewrite pre_slice_upper.
Qed.

Lemma forall_chars_map_str (p : ascii -> bool) (f : ascii -> ascii)
      (s : string) :
  forall_chars p (map_str f s) = forall_chars (fun c => p (f c)) s.
Proof.
  induction s as [|c r IH]; cbn [map_str forall_chars];
    [reflexivity | now rewrite IH].
Qed.

Lemma forall_chars_ext (p q : ascii -> bool) (s : string) :
  (forall c, p c = q c) -> forall_chars p s = forall_chars q s.
Proof.
  intros E. induction s as [|c r IH]; cbn [forall_chars];
    [reflexivity | now rewrite E, IH].
Qed.

Lemma in_alphabet_replace (c : ascii) :
  in_alphabet (if Ascii.eqb c "U" then "C"%char else c)
  = in_alphabet c || Ascii.eqb c "U".
Proof. each_char c. Qed.

(** What the validator's verdict says about a stored sequence. *)
Lemma check_stored (v : value) (m : Z) :
  check_seq (process_sequence v m) default_max_scan
  = forall_chars storable
      (slice_to (default_max_scan + 15) (process_sequence v m)).
Proof.
  rewrite check_seq_no_LF by apply process_sequence_no_LF.
  unfold normalize. unfold upper at 1. rewrite <- slice_to_map_str.
  fold (upper (process_sequence v m)). rewrite process_sequence_upper.
  unfold replace_char. rewrite forall_chars_map_str.
  apply forall_chars_ext. intros c. apply in_alphabet_replace.
Qed.

Lemma row_of_table (file : list value) (m : Z) (df : list Row)
      (printed : option nat) (r : Row) :
  fasta_reader file m = inr (df, printed) ->
  In r df ->
  exists i cell,
    nth_error file i = Some cell /\ r = parse_row i cell m
    /\ survives r = true.
Proof.
  intros H Hin. apply fasta_reader_inr in H as [-> _].
  apply filter_In in Hin as [Hin Hs].
  apply rows_from_In in Hin as (i & cell & Hc & E).
  exists i, cell. now rewrite Nat.add_0_l in E.
Qed.

(** X6: every stored sequence is between 1 and [max_scan + 15] characters
    long, is not ["NONE"], has no line break and no lower-case letter; its
    first 95 characters are among the 20 letters and [U], and so is the
    whole of it when [max_scan] is at most 80. *)
Theorem fasta_reader_stored_sequence (file : list value) (m : Z)
        (df : list Row) (printed : option nat) (r : Row) :
  (0 <= m + 15)%Z ->
  fasta_reader file m = inr (df, printed) ->
  In r df ->
  (1 <= String.length (Sequence r) <= Z.to_nat (m + 15))%nat
  /\ Sequence r <> "NONE"
  /\ mem_char LF (Sequence r) = false
  /\ upper (Sequence r) = Sequence r
  /\ forall_chars storable (slice_to 95 (Sequence r)) = true
  /\ ((m <= 80)%Z -> forall_chars storable (Sequence r) = true).
Proof.
  intros Hm H Hin.
  destruct (row_of_table _ _ _ _ _ H Hin) as (i & cell & _ & -> & Hs).
  rewrite parse_row_fields in *. cbn [Sequence]. unfold processed.
  set (v := raw_sequence_of cell) in *.
  unfold survives, check, not_empty_not_none in Hs. cbn [Sequence] in Hs.
  unfold processed in Hs. fold v in Hs.
  apply andb_true_iff in Hs as [Hs _].
  apply andb_true_iff in Hs as [Hc Hs].
  apply andb_true_iff in Hs as [He Hn].
  apply negb_true_iff in He, Hn.
  rewrite check_stored in Hc. change (default_max_scan + 15)%Z with 95%Z in Hc.
  assert (L : (String.length (process_sequence v m) <= Z.to_nat (m + 15))%nat).
  { rewrite process_sequence_unfold, slice_to_length by lia. lia. }
  split; [split; [| exact L] |].
  { destruct (process_sequence v m); [discriminate He | cbn; lia]. }
  split; [intros E; rewrite E in Hn; discriminate Hn |].
  split; [apply process_sequence_no_LF |].
  split; [apply process_sequence_upper |].
  split; [exact Hc |].
  intros H80. rewrite slice_to_all in Hc; [exact Hc | lia].
Qed.

Lemma fasta_reader_stored_sequence_witness :
  (1 <= String.length "ACDEFGHIK" <= Z.to_nat (16 + 15))%nat
  /\ "ACDEFGHIK" <> "NONE"
  /\ mem_char LF "ACDEFGHIK" = false
  /\ upper "ACDEFGHIK" = "ACDEFGHIK"
  /\ forall_chars storable (slice_to 95 "ACDEFGHIK") = true
  /\ ((16 <= 80)%Z -> forall_chars storable "ACDEFGHIK" = true).
Proof.
  apply (fasta_reader_stored_sequence ten_records 16 seven_rows (Some 3)
           (mkRow 2 (Str "r2") "ACDEFGHIK")).
  - lia.
  - reflexivity.
  - cbn. tauto.
Defined.

Lemma take_singleton (n : nat) (s : string) (c : ascii) :
  (2 <= n)%nat -> take n s = String c "" -> s = String c "".
Proof.
  intros Hn H. destruct n as [|[|n]]; try lia.
  destruct s as [|d [|e r]]; cbn [take] in H; try discriminate H; exact H.
Qed.

(** X7: parsing is stable on what it stores: a stored sequence run through
    lines 52-53 again comes back unchanged, as long as the slice keeps at
    least two characters. *)
Theorem process_sequence_idempotent (v : value) (m : Z) :
  (2 <= m + 15)%Z ->
  process_sequence (Str (process_sequence v m)) m = process_sequence v m.
Proof.
  intros Hm.
  rewrite (process_sequence_unfold (Str (process_sequence v m))).
  cbn [replace_regex_LF astype_str].
  rewrite remove_char_none by apply process_sequence_no_LF.
  rewrite process_sequence_upper.
  assert (E : series_replace_U_C (process_sequence v m)
              = process_sequence v m).
  { destruct (series_replace_cases (process_sequence v m))
      as [[E _] | [_ E]]; [| exact E].
    exfalso. rewrite process_sequence_unfold in E. unfold slice_to in E.
    destruct (Z.leb_spec 0 (m + 15)); [| lia].
    apply take_singleton in E; [| lia].
    pose proof (pre_slice_not_U v) as N. rewrite E in N. discriminate N. }
  rewrite E. apply slice_to_all.
  rewrite process_sequence_unfold, slice_to_length by lia. lia.
Qed.

Lemma process_sequence_idempotent_witness :
  process_sequence (Str (process_sequence (Str ("ac" ++ nl ++ "u")) 16)) 16
  = process_sequence (Str ("ac" ++ nl ++ "u")) 16.
Proof. apply process_sequence_idempotent. lia. Defined.

(** X16: a larger scan window only extends what is stored: the sequence
    stored with window [m] is the first [m + 15] characters of the sequence
    stored with any larger window. *)
Theorem process_sequence_window_prefix (v : value) (m m' : Z) :
  (0 <= m + 15)%Z -> (m <= m')%Z ->
  process_sequence v m = slice_to (m + 15) (process_sequence v m').
Proof.
  intros H0 Hle. rewrite !process_sequence_unfold. unfold slice_to.
  destruct (Z.leb_spec 0 (m + 15)); [| lia].
  destruct (Z.leb_spec 0 (m' + 15)); [| lia].
  symmetry. apply take_take. lia.
Qed.

Lemma process_sequence_window_prefix_witness :
  process_sequence (Str long_tail_sequence) 16
  = slice_to (16 + 15) (process_sequence (Str long_tail_sequence) 81).
Proof. apply process_sequence_window_prefix; lia. Defined.

Lemma rows_from_app (k : nat) (f1 f2 : list value) (m : Z) :
  rows_from k (f1 ++ f2)%list m
  = (rows_from k f1 m ++ rows_from (k + List.length f1) f2 m)%list.
Proof.
  revert k; induction f1 as [|c f1 IH]; intros k; cbn [rows_from app length].
  - now rewrite Nat.add_0_r.
  - rewrite IH.
    replace (S k + List.length f1)%nat with (k + S (List.length f1))%nat
      by lia.
    reflexivity.
Qed.

(** X8: records are judged one by one: appending blocks to a file that
    parses gives a file that parses, with the same rows for the earlier
    blocks followed by the surviving rows of the new ones. *)
Theorem fasta_reader_append (f1 f2 : list value) (m : Z) (d1 : list Row)
        (p1 : option nat) :
  fasta_reader f1 m = inr (d1, p1) ->
  exists p,
    fasta_reader (f1 ++ f2)%list m
    = inr ((d1 ++ filter survives (rows_from (List.length f1) f2 m))%list,
           p).
Proof.
  intros H. pose proof (fasta_reader_inr _ _ _ _ H) as [-> _].
  unfold fasta_reader in *.
  destruct (splits_in_two f1) eqn:S1; [| discriminate H].
  unfold splits_in_two in *. rewrite existsb_app, S1. cbn [orb negb].
  eexists. f_equal. f_equal.
  rewrite three_filters, rows_from_app, filter_app. reflexivity.
Qed.

Lemma fasta_reader_append_witness :
  exists p,
    fasta_reader (acc_file ++ bare_identifier_file)%list 16
    = inr (([mkRow 0 (Str "id1") "ACC"]
            ++ filter survives
                 (rows_from (List.length acc_file) bare_identifier_file 16))
           %list, p).
Proof.
  apply (fasta_reader_append acc_file bare_identifier_file 16
           [mkRow 0 (Str "id1") "ACC"] None).
  reflexivity.
Defined.

(** ** The per-record prediction beyond the claims *)

(** X9: the exceptions that leave [razor_predict]: the constructor's, those
    of [predict], and those of [fungi] and [toxin] that are not a
    [TypeError]; a [TypeError] of an optional stage never leaves it. *)
Theorem razor_predict_raises {F : Type} (around2 : F -> F) {D : Detector F}
        (seq : string) (max_scan : Z) (e : exn) :
  razor_predict around2 seq max_scan = inl e <->
  RAZOR_new seq max_scan = inl e
  \/ (exists o, RAZOR_new seq max_scan = inr o /\ snd (predict o) = Some e)
  \/ (exists o o1,
        RAZOR_new seq max_scan = inr o /\ predict o = (o1, None)
        /\ is_TypeError e = false
        /\ (snd (fungi o1) = Some e
            \/ exists o2, fungi o1 = (o2, None) /\ snd (toxin o2) = Some e)).
Proof.
  unfold razor_predict, run_detector, optional_stages.
  destruct (RAZOR_new seq max_scan) as [e0 | o].
  { split.
    - intros H. injection H as ->. now left.
    - intros [H | [(o & H & _) | (o & o1 & H & _)]]; try discriminate H.
      now injection H as ->. }
  destruct (predict o) as [o1 [e1 |]] eqn:P.
  { split.
    - intros H. injection H as ->. right; left. exists o. now rewrite P.
    - intros [H | [(o' & H & H') | (o' & o1' & H & H' & _)]];
        try discriminate H; injection H as <-; rewrite P in *.
      + cbn [snd] in H'. now injection H' as ->.
      + discriminate H'. }
  split.
  - intros H. right; right. exists o, o1. split; [reflexivity |].
    split; [exact P |].
    destruct (fungi o1) as [o2 [e2 |]] eqn:Fg.
    + destruct (is_TypeError e2) eqn:T; [discriminate H |].
      injection H as <-. split; [exact T | now left].
    + destruct (toxin o2) as [o3 [e3 |]] eqn:Tx; [| discriminate H].
      destruct (is_TypeError e3) eqn:T; [discriminate H |].
      injection H as <-. split; [exact T |].
      right. exists o2. split; [reflexivity | now rewrite Tx].
  - intros [H | [(o' & H & H') | (o' & o1' & H & H' & T & S)]];
      try discriminate H; injection H as <-; rewrite P in *.
    + discriminate H'.
    + injection H' as <-.
      destruct S as [S | (o2 & Fg & S)].
      * destruct (fungi o1) as [o2 [e2 |]]; cbn [snd] in S;
          [| discriminate S].
        injection S as ->. now rewrite T.
      * rewrite Fg. destruct (toxin o2) as [o3 [e3 |]]; cbn [snd] in S;
          [| discriminate S].
        injection S as ->. now rewrite T.
Qed.

(** X10: when [fungi] raises, [toxin] is not run: the result is the same
    whatever [toxin] would do. *)
Theorem razor_predict_skips_toxin {F : Type} (around2 : F -> F)
        new pred fung (tox1 tox2 : RAZOR F -> RAZOR F * option exn)
        (seq : string) (max_scan : Z) (o o1 o2 : RAZOR F) (e : exn) :
  new seq max_scan = inr o ->
  pred o = (o1, None) ->
  fung o1 = (o2, Some e) ->
  razor_predict around2 (D := Build_Detector F new pred fung tox1) seq max_scan
  = razor_predict around2 (D := Build_Detector F new pred fung tox2)
                  seq max_scan.
Proof.
  intros Hn Hp Hf.
  unfold razor_predict, run_detector, optional_stages.
  cbn [RAZOR_new predict fungi toxin]. now rewrite Hn, Hp, Hf.
Qed.

Lemma razor_predict_skips_toxin_witness :
  razor_predict sample_around2
    (D := Build_Detector Z (spec_new 0%Z) (spec_predict sample_primary)
            (spec_fungi no_fungal) (spec_toxin sample_toxic)) "MKV" 80
  = razor_predict sample_around2
      (D := Build_Detector Z (spec_new 0%Z) (spec_predict sample_primary)
              (spec_fungi no_fungal) (spec_toxin sample_fungal)) "MKV" 80.
Proof.
  eapply razor_predict_skips_toxin; reflexivity.
Defined.

(** ** [main] and the script *)

Lemma index_injective (df : list Row) :
  NoDup (map index df) ->
  forall r r', In r df -> In r' df -> index r = index r' -> r = r'.
Proof.
  induction df as [|x df IH]; cbn [map]; intros H r r' Hr Hr' E;
    [destruct Hr |].
  apply NoDup_cons_iff in H as [Hx Hdf].
  destruct Hr as [<- | Hr], Hr' as [<- | Hr']; auto.
  - exfalso. apply Hx. rewrite E. now apply in_map.
  - exfalso. apply Hx. rewrite <- E. now apply in_map.
Qed.

Lemma fasta_reader_labels (file : list value) (m : Z) (df : list Row)
      (printed : option nat) :
  fasta_reader file m = inr (df, printed) -> NoDup (map index df).
Proof.
  intros H. apply fasta_reader_inr in H as [-> _].
  apply kept_rows_distinct. rewrite rows_from_index. apply seq_NoDup.
Qed.

Lemma annotated_rows {F : Type} (f : string -> exn + Bundle F)
      (df : list Row) (out : list (OutputRow F)) :
  annotated f df = Some out <->
  map record_of out = df
  /\ Forall (fun o => f (out_Sequence o) = inr (out_Analysis o)) out.
Proof.
  revert out; induction df as [|r df IH]; intros out; cbn [annotated].
  - split.
    + intros H. injection H as <-. split; constructor.
    + intros [H _]. destruct out; [reflexivity | discriminate H].
  - split.
    + destruct (f (Sequence r)) as [e | b] eqn:E; [discriminate |].
      destruct (annotated f df) as [out' |]; [| discriminate].
      intros H. injection H as <-. destruct (proj1 (IH out') eq_refl) as [H1 H2].
      split.
      * cbn [map]. rewrite H1. unfold record_of. cbn. now destruct r.
      * constructor; [exact E | exact H2].
    + intros [H1 H2]. destruct out as [|o out]; [discriminate H1 |].
      cbn [map] in H1. injection H1 as Ho H1.
      apply Forall_cons_iff in H2 as [Hf H2].
      rewrite (proj2 (IH out) (conj H1 H2)).
      rewrite <- Ho in *. cbn [record_of Sequence index Accession].
      unfold record_of in Hf |- *. cbn [Sequence]. rewrite Hf.
      now destruct o as [i a q [ ]].
Qed.

Lemma annotated_returns {F : Type} (f : string -> exn + Bundle F)
      (df : list Row) :
  (exists out, annotated f df = Some out) <->
  Forall (fun r => exists b, f (Sequence r) = inr b) df.
Proof.
  induction df as [|r df IH]; cbn [annotated].
  - split; [constructor | now exists []].
  - split.
    + intros (out & H).
      destruct (f (Sequence r)) as [e | b] eqn:E; [discriminate H |].
      destruct (annotated f df) as [out' |]; [| discriminate H].
      constructor; [now exists b | apply IH; now exists out'].
    + intros H. apply Forall_cons_iff in H as [(b & ->) H].
      apply IH in H as (out' & ->). eexists; reflexivity.
Qed.

Section ScriptFacts.

Context {F : Type}.
Variable around2 : F -> F.
Context {D : Detector F}.
Variable read_csv : string -> list value.
Variable to_csv : string -> string -> list (OutputRow F) -> option exn.
Variable completion : list (list Row) -> list nat.

Lemma series_apply_entries (f : string -> exn + Bundle F) (rows : list Row)
      (s : Series F) :
  series_apply f rows = inr s ->
  (forall r, In r rows -> exists b, lookup (index r) s = Some b)
  /\ (forall i b, lookup i s = Some b ->
        exists r, In r rows /\ index r = i /\ f (Sequence r) = inr b).
Proof.
  revert s; induction rows as [|r rows IH]; cbn [series_apply]; intros s H.
  - injection H as <-. split; [intros r [] | discriminate].
  - destruct (f (Sequence r)) as [e | b] eqn:E; [discriminate H |].
    destruct (series_apply f rows) as [e | s']; [discriminate H |].
    injection H as <-. destruct (IH s' eq_refl) as [IH1 IH2]. split.
    + intros r0 Hr0. cbn [lookup].
      destruct (Nat.eqb_spec (index r0) (index r)) as [_ | N];
        [now exists b |].
      destruct Hr0 as [<- | Hr0]; [now contradiction N | auto].
    + intros i b0. cbn [lookup].
      destruct (Nat.eqb_spec i (index r)) as [-> | _].
      * intros H. injection H as <-. exists r. auto with datatypes.
      * intros H. destruct (IH2 i b0 H) as (r' & Hr' & Hi & Hf).
        exists r'. auto with datatypes.
Qed.

Lemma series_apply_returns (f : string -> exn + Bundle F)
      (rows : list Row) :
  (exists s, series_apply f rows = inr s) <->
  Forall (fun r => exists b, f (Sequence r) = inr b) rows.
Proof.
  induction rows as [|r rows IH]; cbn [series_apply].
  - split; [constructor | now exists []].
  - split.
    + intros (s & H).
      destruct (f (Sequence r)) as [e | b] eqn:E; [discriminate H |].
      destruct (series_apply f rows) as [e | s']; [discriminate H |].
      constructor; [now exists b | apply IH; now exists s'].
    + intros H. apply Forall_cons_iff in H as [(b & ->) H].
      apply IH in H as (s' & ->). eexists; reflexivity.
Qed.

Lemma series_apply_inl (f : string -> exn + Bundle F) (df : list Row)
      (e : exn) :
  series_apply f df = inl e <->
  exists pre r post,
    df = (pre ++ r :: post)%list
    /\ Forall (fun x => exists b, f (Sequence x) = inr b) pre
    /\ f (Sequence r) = inl e.
Proof.
  induction df as [|r df IH]; cbn [series_apply].
  - split; [discriminate |].
    intros (pre & r & post & H & _). now destruct pre.
  - destruct (f (Sequence r)) as [e0 | b] eqn:E.
    + split.
      * intros H. injection H as ->. exists [], r, df. repeat split; auto.
      * intros ([|x pre] & r' & post & H & Hpre & Hr); injection H as <- _.
        -- congruence.
        -- apply Forall_inv in Hpre as (b & Hb). congruence.
    + destruct (series_apply f df) as [e1 | s].
      * split.
        -- intros H. injection H as ->.
           destruct (proj1 IH eq_refl) as (pre & r' & post & -> & Hpre & Hr).
           exists (r :: pre), r', post. repeat split; auto.
           constructor; [now exists b | exact Hpre].
        -- intros ([|x pre] & r' & post & H & Hpre & Hr);
             injection H as <- H; [congruence |].
           f_equal. assert (G : @inl exn (Series F) e1 = inl e);
             [| now injection G].
           apply IH. exists pre, r', post. repeat split; auto.
           now apply Forall_inv_tail in Hpre.
      * split; [discriminate |].
        intros ([|x pre] & r' & post & H & Hpre & Hr);
          injection H as <- H; [congruence |].
        assert (G : @inr exn (Series F) s = inl e); [| discriminate G].
        apply IH. exists pre, r', post. repeat split; auto.
        now apply Forall_inv_tail in Hpre.
Qed.

(** Aligned on the index, a series computed from the rows of the table in
    any order gives each row the bundle of its own sequence. *)
Lemma assign_annotated (f : string -> exn + Bundle F) (rows df0 : list Row)
      (s : Series F) :
  series_apply f rows = inr s ->
  (forall r, In r rows <-> In r df0) ->
  NoDup (map index df0) ->
  forall df, incl df df0 -> assign df s = annotated f df.
Proof.
  intros A Same Labels. destruct (series_apply_entries f rows s A) as [E1 E2].
  induction df as [|r df IH]; intros Hin; [reflexivity |].
  cbn [assign annotated].
  assert (Hr : In r df0) by (apply Hin; now left).
  destruct (E1 r (proj2 (Same r) Hr)) as (b & Hb). rewrite Hb.
  destruct (E2 _ _ Hb) as (r' & Hr' & Hi & Hf).
  apply Same in Hr'.
  rewrite (index_injective df0 Labels r' r Hr' Hr Hi) in Hf. rewrite Hf.
  rewrite IH; [reflexivity |]. intros x Hx. apply Hin. now right.
Qed.

Lemma cut_concat (fuel size : nat) (rows : list Row) :
  (1 <= size)%nat -> (List.length rows <= fuel)%nat ->
  List.concat (cut fuel size rows) = rows.
Proof.
  intros Hs. revert rows; induction fuel as [|fuel IH]; intros rows Hl.
  - destruct rows; [reflexivity | cbn in Hl; lia].
  - destruct rows as [|r rows]; [reflexivity |].
    change (cut (S fuel) size (r :: rows))
      with (firstn size (r :: rows) :: cut fuel size (skipn size (r :: rows))).
    cbn [List.concat]. rewrite IH; [apply firstn_skipn |].
    rewrite length_skipn. cbn [List.length] in *. lia.
Qed.

Lemma chunks_concat (nb_workers : Z) (rows : list Row) :
  (1 <= nb_workers)%Z -> List.concat (chunks nb_workers rows) = rows.
Proof.
  intros Hn. unfold chunks. destruct rows as [|r rows]; [reflexivity |].
  apply cut_concat; [| lia].
  unfold chunk_size. cbn [List.length].
  assert (1 <= (Z.of_nat (S (List.length rows)) + nb_workers - 1)
               / nb_workers)%Z; [| lia].
  apply Z.div_le_lower_bound; lia.
Qed.

Lemma gathered_In (cs : list (list Row)) (order : list nat) (r : Row) :
  Permutation order (seq 0 (List.length cs)) ->
  In r (flat_map (fun i => nth i cs []) order) <-> In r (List.concat cs).
Proof.
  intros P. rewrite in_flat_map, in_concat. split.
  - intros (i & Hi & Hr). exists (nth i cs []). split; [| exact Hr].
    apply nth_In. apply (Permutation_in _ P) in Hi. apply in_seq in Hi. lia.
  - intros (c & Hc & Hr). destruct (In_nth cs c [] Hc) as (i & Hi & E).
    exists i. rewrite E. split; [| exact Hr].
    apply (Permutation_in _ (Permutation_sym P)). apply in_seq. lia.
Qed.

(** When [main] returns, on one core or on a pool in which every chunk
    completes once. *)
Lemma main_returns (path output_path : string) (max_scan ncores : Z)
      (out : list (OutputRow F)) :
  ncores = 1%Z
  \/ ((1 <= ncores)%Z
      /\ forall cs, Permutation (completion cs) (seq 0 (List.length cs))) ->
  main around2 read_csv to_csv completion path output_path max_scan ncores
  = inr out <->
  exists df printed,
    fasta_reader (read_csv path) max_scan = inr (df, printed)
    /\ df <> []
    /\ annotated (fun x => razor_predict around2 x max_scan) df = Some out
    /\ to_csv output_path path out = None.
Proof.
  intros Hpool. unfold main.
  destruct (fasta_reader (read_csv path) max_scan) as [e | [df printed]] eqn:R.
  { split; [discriminate | intros (df & printed & H & _); discriminate H]. }
  cbv zeta. set (f := fun x => razor_predict around2 x max_scan).
  assert (Rows : exists rows,
            (if (ncores =? 1)%Z then progress_apply f df
             else parallel_apply completion ncores f df)
            = series_apply f rows
            /\ forall r, In r rows <-> In r df).
  { destruct (Z.eqb_spec ncores 1) as [E | E].
    - exists df. split; [reflexivity | tauto].
    - destruct Hpool as [E' | [Hn Hc]]; [contradiction |].
      unfold parallel_apply. destruct (Z.ltb_spec ncores 1); [lia |].
      eexists. split; [reflexivity |].
      intros r. rewrite gathered_In by apply Hc.
      now rewrite chunks_concat. }
  destruct Rows as (rows & -> & Same).
  pose proof (fasta_reader_labels _ _ _ _ R) as Labels.
  destruct (series_apply f rows) as [e | s] eqn:A.
  - split; [discriminate |].
    intros (df' & printed' & H & _ & Ha & _). injection H as <- <-.
    assert (G : exists s, series_apply f rows = inr s).
    { apply series_apply_returns. apply Forall_forall. intros r Hr.
      apply Same in Hr. revert r Hr. apply Forall_forall.
      apply annotated_returns. now exists out. }
    destruct G as (s & G). rewrite G in A. discriminate A.
  - pose proof (assign_annotated f rows df s A Same Labels df (incl_refl df))
      as As.
    destruct df as [|r df].
    + split; [discriminate |].
      intros (df' & printed' & H & Hne & _). injection H as <- <-.
      now contradiction Hne.
    + rewrite As. destruct (annotated f (r :: df)) as [out0 |] eqn:An.
      * destruct (to_csv output_path path out0) as [e |] eqn:W.
        -- split; [discriminate |].
           intros (df' & printed' & H & _ & Ha & Hw).
           injection H as <- <-. rewrite An in Ha. injection Ha as <-.
           rewrite W in Hw. discriminate Hw.
        -- split.
           ++ intros H. injection H as <-.
              exists (r :: df), printed. repeat split; auto. discriminate.
           ++ intros (df' & printed' & H & _ & Ha & _).
              injection H as <- <-. rewrite An in Ha. now injection Ha as <-.
      * split; [discriminate |].
        intros (df' & printed' & H & _ & Ha & _).
        injection H as <- <-. rewrite An in Ha. discriminate Ha.
Qed.

(** X11: on one core, a run that returns gives one output row per row of
    the parsed table, in the same order, with that row's index, identifier
    and sequence and with the bundle [razor_predict] returns on its
    sequence. *)
Theorem main_sequential_rows (path output_path : string) (max_scan : Z)
        (out : list (OutputRow F)) :
  main around2 read_csv to_csv completion path output_path max_scan 1
  = inr out ->
  exists df printed,
    fasta_reader (read_csv path) max_scan = inr (df, printed)
    /\ map record_of out = df
    /\ Forall (fun o => razor_predict around2 (out_Sequence o) max_scan
                        = inr (out_Analysis o)) out.
Proof.
  intros H. apply main_returns in H; [| now left].
  destruct H as (df & printed & R & _ & Ha & _).
  apply annotated_rows in Ha as [H1 H2].
  exists df, printed. repeat split; assumption.
Qed.

(** X12: on one core, an exception leaves [main] exactly when the parser
    raises it; or [razor_predict] raises it on a row of the table after
    returning on all rows before; or the table has no row, and it is the
    error of line 154; or every call returns and [to_csv] raises it on the
    assembled table. *)
Theorem main_sequential_raises (path output_path : string) (max_scan : Z)
        (e : exn) :
  main around2 read_csv to_csv completion path output_path max_scan 1
  = inl e <->
  fasta_reader (read_csv path) max_scan = inl e
  \/ (exists df printed pre r post,
        fasta_reader (read_csv path) max_scan = inr (df, printed)
        /\ df = (pre ++ r :: post)%list
        /\ Forall (fun x => exists b,
                     razor_predict around2 (Sequence x) max_scan = inr b) pre
        /\ razor_predict around2 (Sequence r) max_scan = inl e)
  \/ (exists printed,
        fasta_reader (read_csv path) max_scan = inr ([], printed)
        /\ e = OtherError "ValueError")
  \/ (exists df printed out,
        fasta_reader (read_csv path) max_scan = inr (df, printed)
        /\ df <> []
        /\ map record_of out = df
        /\ Forall (fun o => razor_predict around2 (out_Sequence o) max_scan
                            = inr (out_Analysis o)) out
        /\ to_csv output_path path out = Some e).
Proof.
  unfold main.
  destruct (fasta_reader (read_csv path) max_scan) as [e0 | [df printed]] eqn:R.
  { split.
    - intros H. injection H as ->. now left.
    - intros [H | [(? & ? & ? & ? & ? & H & _)
                  | [(? & H & _) | (? & ? & ? & H & _)]]];
        try discriminate H. now injection H as ->. }
  cbv zeta. set (f := fun x => razor_predict around2 x max_scan).
  cbn [Z.eqb Pos.eqb]. unfold progress_apply.
  pose proof (fasta_reader_labels _ _ _ _ R) as Labels.
  match goal with
  | |- ?L <-> _ =>
      cut (L <->
           (exists pre r post,
              df = (pre ++ r :: post)%list
              /\ Forall (fun x => exists b, f (Sequence x) = inr b) pre
              /\ f (Sequence r) = inl e)
           \/ (df = [] /\ e = OtherError "ValueError")
           \/ (exists out,
                 df <> [] /\ annotated f df = Some out
                 /\ to_csv output_path path out = Some e))
  end.
  { intros C. rewrite C. clear C. split.
    - intros [(pre & r & post & H) | [[H1 H2] | (out & Hne & An & W)]].
      + right; left. now exists df, printed, pre, r, post.
      + right; right; left. exists printed. now rewrite H1.
      + right; right; right. apply annotated_rows in An as [H1 H2].
        now exists df, printed, out.
    - intros [H | [(df' & printed' & pre & r & post & H & Hd)
                  | [(printed' & H & He)
                    | (df' & printed' & out & H & Hne & H1 & H2 & W)]]].
      + discriminate H.
      + injection H as <- <-. left. now exists pre, r, post.
      + injection H as E1 E2. right; left. now split.
      + injection H as <- <-. right; right. exists out.
        repeat split; auto. apply annotated_rows. now split. }
  destruct (series_apply f df) as [e1 | s] eqn:A.
  - split.
    + intros H. injection H as ->. left. now apply series_apply_inl.
    + intros [H | [[H1 H2] | (out & Hne & An & W)]].
      * apply series_apply_inl in H. rewrite A in H. now injection H as ->.
      * rewrite H1 in A. discriminate A.
      * assert (G : exists s, series_apply f df = inr s).
        { apply series_apply_returns, annotated_returns. now exists out. }
        destruct G as (s & G). rewrite A in G. discriminate G.
  - pose proof (assign_annotated f df df s A (fun r => iff_refl _) Labels df
                  (incl_refl df)) as As.
    assert (Ok : exists out0, annotated f df = Some out0).
    { apply annotated_returns, series_apply_returns. now exists s. }
    destruct Ok as (out0 & An). rewrite An in As.
    assert (NoFail : ~ exists pre r post,
              df = (pre ++ r :: post)%list
              /\ Forall (fun x => exists b, f (Sequence x) = inr b) pre
              /\ f (Sequence r) = inl e).
    { intros H. apply series_apply_inl in H. rewrite A in H. discriminate H. }
    destruct df as [|r df].
    + split.
      * intros H. injection H as <-. right; left. now split.
      * intros [H | [[_ ->] | (out & Hne & _)]];
          [contradiction | reflexivity | now contradiction Hne].
    + rewrite As. destruct (to_csv output_path path out0) as [e1 |] eqn:W.
      * split.
        -- intros H. injection H as ->. right; right. exists out0.
           repeat split; auto. discriminate.
        -- intros [H | [[H _] | (out & _ & An' & W')]];
             [contradiction | discriminate H |].
           rewrite An in An'. injection An' as <-. rewrite W in W'.
           now injection W' as ->.
      * split; [discriminate |].
        intros [H | [[H _] | (out & _ & An' & W')]];
          [contradiction | discriminate H |].
        rewrite An in An'. injection An' as <-. rewrite W in W'.
        discriminate W'.
Qed.

Lemma run_files_events (files : list string) (a : Args)
      (evs : list io_event) (r : option exn) :
  run_files around2 read_csv to_csv completion files a = (evs, r) ->
  match r with
  | None => evs = all_processed (args_output a) files
  | Some e =>
      exists done path rest,
        files = (done ++ path :: rest)%list
        /\ evs = (all_processed (args_output a) done ++ [ReadCsv path])%list
        /\ main around2 read_csv to_csv completion path (args_output a)
                (args_max_scan a) (args_ncores a) = inl e
  end.
Proof.
  revert evs r; induction files as [|path files IH]; cbn [run_files];
    intros evs r H.
  - injection H as <- <-. reflexivity.
  - destruct (main around2 read_csv to_csv completion path (args_output a)
                   (args_max_scan a) (args_ncores a)) as [e | out] eqn:M.
    + injection H as <- <-. exists [], path, files. repeat split; auto.
    + destruct (run_files around2 read_csv to_csv completion files a)
        as [evs' r'].
      injection H as <- <-. specialize (IH evs' r' eq_refl).
      destruct r' as [e |].
      * destruct IH as (done & p & rest & -> & -> & Hm).
        exists (path :: done), p, rest. repeat split; auto.
      * rewrite IH. reflexivity.
Qed.

Variable cpu_count : Z.
Variable glob_fa : string -> list string.

(** X13: a run whose arguments are accepted lists the directory once, then
    reads and writes file after file in sorted order; when [main] raises on
    a file, that file is read and not written, and no later file is
    read. *)
Theorem script_events (cl : CommandLine) (a : Args) (evs : list io_event)
        (o : outcome) :
  get_args cpu_count cl = inr a ->
  script around2 cpu_count glob_fa read_csv to_csv completion cl = (evs, o) ->
  match o with
  | Finished =>
      evs = Glob (args_path a)
            :: all_processed (args_output a) (glob_fa (args_path a))
  | Raised e =>
      exists done path rest,
        glob_fa (args_path a) = (done ++ path :: rest)%list
        /\ evs = (Glob (args_path a)
                  :: all_processed (args_output a) done ++ [ReadCsv path])%list
        /\ main around2 read_csv to_csv completion path (args_output a)
                (args_max_scan a) (args_ncores a) = inl e
  | UsageError _ => False
  end.
Proof.
  intros Ha. unfold script. rewrite Ha.
  destruct (run_files around2 read_csv to_csv completion
              (glob_fa (args_path a)) a) as [evs' r] eqn:R.
  intros H. injection H as <- <-.
  apply run_files_events in R. destruct r as [e |].
  - destruct R as (done & path & rest & E & -> & Hm).
    exists done, path, rest. repeat split; auto.
  - now rewrite R.
Qed.

End ScriptFacts.



Lemma main_sequential_rows_witness :
  exists df printed,
    fasta_reader (sample_read_csv "a.fa") 16 = inr (df, printed)
    /\ map record_of [mkOutputRow 0 (Str "id1") "ACC" sample_bundle] = df
    /\ Forall (fun o => razor_predict sample_around2 (D := sample_detector)
                          (out_Sequence o) 16 = inr (out_Analysis o))
              [mkOutputRow 0 (Str "id1") "ACC" sample_bundle].
Proof.
  apply (main_sequential_rows sample_around2 (D := sample_detector)
           sample_read_csv written last_first "a.fa" "out" 16).
  reflexivity.
Defined.

Lemma script_events_witness :
  exists done path rest,
    two_files "seqs" = (done ++ path :: rest)%list
    /\ [Glob "seqs"; ReadCsv "a.fa"; ToCsv "out" "a.fa"; ReadCsv "b.fa"]
       = (Glob "seqs" :: all_processed "out" done ++ [ReadCsv path])%list
    /\ main sample_around2 (D := sample_detector) sample_read_csv written
            last_first path "out" 16 1
       = inl (ArgumentTypeError "Something is wrong with the fasta file.").
Proof.
  exact (script_events sample_around2 (D := sample_detector)
           sample_read_csv written last_first 8 two_files one_worker
           (mkArgs "seqs" "out" 16 1 true)
           [Glob "seqs"; ReadCsv "a.fa"; ToCsv "out" "a.fa"; ReadCsv "b.fa"]
           (Raised (ArgumentTypeError "Something is wrong with the fasta file."))
           eq_refl eq_refl).
Defined.

(** ** Configuration beyond the claims *)

(** X14: what an accepted command line gives: the path as typed, a scan
    window of at least 16 that is the default 80 or the integer typed, the
    worker count typed or half the cores, and the output name typed or
    ["result"]. *)
Theorem get_args_accepted (cpu_count : Z) (cl : CommandLine) (a : Args) :
  get_args cpu_count cl = inr a ->
  opt_path cl = Some (args_path a)
  /\ (16 <= args_max_scan a)%Z
  /\ match opt_max_scan cl with
     | None => args_max_scan a = 80%Z
     | Some m => PyInt.int m = Some (args_max_scan a)
     end
  /\ match opt_ncores cl with
     | None => args_ncores a = (cpu_count / 2)%Z
     | Some n => PyInt.int n = Some (args_ncores a)
     end
  /\ match opt_output cl with
     | None => args_output a = "result"
     | Some out => args_output a = out
     end
  /\ args_quiet a = opt_quiet cl.
Proof.
  unfold get_args. destruct (opt_path cl) as [p|]; [| discriminate].
  destruct (opt_max_scan cl) as [m|].
  - destruct (check_max_scan m) as [[msg | | name] | z] eqn:C;
      try discriminate.
    apply check_max_scan_accepts in C as [Ci Cz].
    destruct (opt_ncores cl) as [n|].
    + destruct (PyInt.int n) as [k|]; [| discriminate].
      intros H. injection H as <-. cbn.
      destruct (opt_output cl); repeat split; auto.
    + cbn. intros H. injection H as <-. cbn.
      destruct (opt_output cl); repeat split; auto.
  - destruct (opt_ncores cl) as [n|].
    + destruct (PyInt.int n) as [k|]; [| discriminate].
      intros H. injection H as <-. cbn.
      destruct (opt_output cl); repeat split; auto; lia.
    + cbn. intros H. injection H as <-. cbn.
      destruct (opt_output cl); repeat split; auto; lia.
Qed.

Lemma get_args_accepted_witness :
  opt_path one_worker = Some "seqs"
  /\ (16 <= 16)%Z
  /\ PyInt.int "16" = Some 16%Z
  /\ PyInt.int "1" = Some 1%Z
  /\ "out" = "out"
  /\ true = opt_quiet one_worker.
Proof.
  exact (get_args_accepted 8 one_worker (mkArgs "seqs" "out" 16 1 true)
           eq_refl).
Defined.

Lemma digit_not_space (c : ascii) :
  PyInt.is_digit c = true -> PyInt.is_space c = false.
Proof.
  destruct c as [[] [] [] [] [] [] [] []]; intros H;
    solve [reflexivity | discriminate H].
Qed.

Lemma uint_digits (d : Decimal.uint) :
  forall_chars PyInt.is_digit (DecimalString.NilEmpty.string_of_uint d) = true.
Proof. induction d; cbn; auto. Qed.

Lemma lstrip_digits (s : string) :
  forall_chars PyInt.is_digit s = true -> PyInt.lstrip s = s.
Proof.
  destruct s as [|c r]; [reflexivity |]. cbn [forall_chars PyInt.lstrip].
  intros H. apply andb_true_iff in H as [Hc _].
  now rewrite (digit_not_space c Hc).
Qed.

Lemma rstrip_digits (s : string) :
  forall_chars PyInt.is_digit s = true -> PyInt.rstrip s = s.
Proof.
  induction s as [|c r IH]; [reflexivity |]. cbn [forall_chars PyInt.rstrip].
  intros H. apply andb_true_iff in H as [Hc Hr].
  now rewrite (digit_not_space c Hc), (IH Hr).
Qed.

Lemma digits_acc (d : Decimal.uint) (acc : positive) :
  PyInt.digits (Zpos acc) true (DecimalString.NilEmpty.string_of_uint d)
  = Some (Zpos (Pos.of_uint_acc d acc)).
Proof.
  revert acc; induction d as [|d IH|d IH|d IH|d IH|d IH|d IH|d IH|d IH|d IH|d IH];
    intros acc; [reflexivity | ..];
    cbn [DecimalString.NilEmpty.string_of_uint PyInt.digits Pos.of_uint_acc];
    change (PyInt.is_digit _) with true; cbv iota;
    match goal with
    | |- PyInt.digits ?z true _ = Some (Zpos (Pos.of_uint_acc _ ?p)) =>
        replace z with (Zpos p)
          by (match goal with
              | |- context [PyInt.digit_value ?c] =>
                  let v := eval vm_compute in (PyInt.digit_value c) in
                  change (PyInt.digit_value c) with v
              end; lia)
    end; apply IH.
Qed.

Lemma digits_uint (d : Decimal.uint) (b : bool) :
  b = true \/ d <> Decimal.Nil ->
  PyInt.digits 0 b (DecimalString.NilEmpty.string_of_uint d) = Some (Z.of_N (Pos.of_uint d)).
Proof.
  revert b; induction d as [|d IH|d IH|d IH|d IH|d IH|d IH|d IH|d IH|d IH|d IH];
    intros b Hb.
  - destruct Hb as [-> | Hb]; [reflexivity | congruence].
  - cbn [DecimalString.NilEmpty.string_of_uint PyInt.digits Pos.of_uint].
    change (PyInt.is_digit _) with true. cbv iota.
    change (10 * 0 + PyInt.digit_value "0")%Z with 0%Z.
    apply IH. now left.
  - apply (digits_acc d 1).
  - apply (digits_acc d 2).
  - apply (digits_acc d 3).
  - apply (digits_acc d 4).
  - apply (digits_acc d 5).
  - apply (digits_acc d 6).
  - apply (digits_acc d 7).
  - apply (digits_acc d 8).
  - apply (digits_acc d 9).
Qed.

Lemma int_of_digits (s : string) :
  forall_chars PyInt.is_digit s = true ->
  PyInt.int s = PyInt.number s
  /\ PyInt.int (String "-" s) = option_map Z.opp (PyInt.number s).
Proof.
  intros H. unfold PyInt.int. split.
  - rewrite (lstrip_digits s H), (rstrip_digits s H).
    destruct s as [|c r]; [reflexivity |].
    cbn [forall_chars] in H. apply andb_true_iff in H as [Hc _].
    destruct c as [[] [] [] [] [] [] [] []];
      solve [reflexivity | discriminate Hc].
  - change (PyInt.lstrip (String "-" s)) with (String "-" s).
    cbn [PyInt.rstrip]. rewrite (rstrip_digits s H).
    change (PyInt.is_space "-") with false. reflexivity.
Qed.

Lemma int_decimal (n : Z) :
  PyInt.int (decimal n)
  = if (PyInt.max_str_digits <? PyInt.count_digits (decimal n))%nat
    then None else Some n.
Proof.
  unfold decimal. destruct n as [|p|p]; [reflexivity | |].
  - cbn [Z.to_int DecimalString.NilZero.string_of_int].
    assert (N : Pos.to_uint p <> Decimal.Nil).
    { intros E. pose proof (DecimalPos.Unsigned.of_to p) as H. rewrite E in H.
      discriminate H. }
    assert (S : DecimalString.NilZero.string_of_uint (Pos.to_uint p)
                = DecimalString.NilEmpty.string_of_uint (Pos.to_uint p)).
    { unfold DecimalString.NilZero.string_of_uint.
      now destruct (Pos.to_uint p). }
    rewrite S, (proj1 (int_of_digits _ (uint_digits _))).
    unfold PyInt.number.
    destruct (PyInt.max_str_digits <? _)%nat; [reflexivity |].
    rewrite digits_uint by now right.
    now rewrite DecimalPos.Unsigned.of_to.
  - cbn [Z.to_int DecimalString.NilZero.string_of_int].
    assert (N : Pos.to_uint p <> Decimal.Nil).
    { intros E. pose proof (DecimalPos.Unsigned.of_to p) as H. rewrite E in H.
      discriminate H. }
    assert (S : DecimalString.NilZero.string_of_uint (Pos.to_uint p)
                = DecimalString.NilEmpty.string_of_uint (Pos.to_uint p)).
    { unfold DecimalString.NilZero.string_of_uint.
      now destruct (Pos.to_uint p). }
    rewrite S, (proj2 (int_of_digits _ (uint_digits _))).
    change (PyInt.count_digits (String "-" ?s)) with (PyInt.count_digits s).
    unfold PyInt.number.
    destruct (PyInt.max_str_digits <? _)%nat; [reflexivity |].
    rewrite digits_uint by now right.
    now rewrite DecimalPos.Unsigned.of_to.
Qed.

(** X15: on the decimal numeral of an integer, [check_max_scan] raises its
    not-an-integer error when the numeral has more than 4300 digits;
    otherwise it returns the integer when it is at least 16 (16 included),
    and raises its out-of-range error when it is smaller. *)
Theorem check_max_scan_decimal (n : Z) :
  check_max_scan (decimal n)
  = if (PyInt.max_str_digits <? PyInt.count_digits (decimal n))%nat
    then inl (ArgumentTypeError "Max scan should be an integer.")
    else if (n <? 16)%Z
         then inl (ArgumentTypeError "Max scan should be greater than 16.")
         else inr n.
Proof.
  unfold check_max_scan. rewrite int_decimal.
  now destruct (PyInt.max_str_digits <? _)%nat.
Qed.

